(** * Mission modes of the hoop-course UAV: a shallow embedding

    The modes of [autonomous_modes/] (LaunchAndScan, PlanRoute,
    GoToPreApproach, CenterInImage, CommitTraverse) are embedded as
    functions over explicit mode state and an explicit record for the
    fields of the shared [uav] object.

    Numbers.  Python [float] values are idealised as real numbers
    ([R]): no rounding, no NaN, no infinities.  Python [int] values
    ([max_targets], [min_hoops_to_stop]) are [Z].

    Typing.  Every attribute holds a value of its documented type or is
    absent/[None] (an [option]); ill-typed attribute values, which the
    Python code would meet with an exception, are outside the model. *)

From Stdlib Require Import Reals Lra List ZArith Lia Permutation Bool.
Import ListNotations.

Open Scope R_scope.

(** ** Numbers and comparisons *)

Definition Rleb (a b : R) : bool := if Rle_dec a b then true else false.
Definition Rltb (a b : R) : bool := if Rlt_dec a b then true else false.

(** Python's two-argument [min(a, b)] keeps [a] unless [b < a];
    [max(a, b)] keeps [a] unless [b > a]. *)
Definition py_min (a b : R) : R := if Rltb b a then b else a.
Definition py_max (a b : R) : R := if Rltb a b then b else a.

(** [dict.get(key, default)] on an optional entry. *)
Definition get {A : Type} (entry : option A) (default : A) : A :=
  match entry with Some v => v | None => default end.

(** [x or default] for a list-valued attribute that may be missing or
    [None]. *)
Definition or_nil {A : Type} (l : option (list A)) : list A :=
  match l with Some l' => l' | None => [] end.

(** ** Geometry *)

Definition Point3 : Type := R * R * R.

Definition px (p : Point3) : R := fst (fst p).
Definition py (p : Point3) : R := snd (fst p).
Definition pz (p : Point3) : R := snd p.

(** [math.dist(p, q)] on two 3-tuples. *)
Definition dist (p q : Point3) : R :=
  sqrt ((px p - px q) * (px p - px q)
        + (py p - py q) * (py p - py q)
        + (pz p - pz q) * (pz p - pz q)).

(** [math.hypot(x, y)]. *)
Definition hypot (x y : R) : R := sqrt (x * x + y * y).

(** ** Data shared between the modes *)

(** A detection / hoop record: a Python dict with optional keys.  The
    [position] entry is [None] when the key is absent or its value is
    not three numbers. *)
Record Detection : Type := mkDetection {
  position : option Point3;
  bearing : option R;
  ex : option R;
  ey : option R;
  radius : option R;
  r : option R
}.

Definition hoop_at (p : Point3) : Detection :=
  mkDetection (Some p) None None None None None.

(** An element of [uav.hoops_discovered]: a dict, a list/tuple of at
    least three entries (its first three converted to floats, [None]
    when the conversion raises), or anything else. *)
Inductive HoopIn : Type :=
| HDict (d : Detection)
| HSeq (p : option Point3)
| HOther.

(** A route entry [{'hoop', 'pre_approach', 'hoop_pos'}]. *)
Record RouteEntry : Type := mkRouteEntry {
  hoop : Detection;
  pre_approach : Point3;
  hoop_pos : Point3
}.

(** Calls on the vehicle interface. *)
Inductive Command : Type :=
| OffboardHeartbeat
| Arm
| Takeoff (alt : R)
| PublishPositionSetpoint (p : Point3) (yaw : option R)
| PublishVelocitySetpoint (vx vy vz yaw_rate : R)
| SetVelocity (vx vy vz : R)
| SetYawRate (rate : R).

(** What [check_status] returns. *)
Inductive Status : Type := CONTINUE | COMPLETE.

(** The fields of the [uav] object the modes read and write.
    [accepts c] tells whether the call [c] returns normally (it raises
    when the primitive is missing or rejects its arguments);
    [vision] is what [get_latest_vision_detections()] returns, [None]
    when the accessor is missing or raises. *)
Module uav.

Record UAV : Type := mkUAV {
  local_position : option Point3;
  vision : option (list Detection);
  hoops_discovered : option (list HoopIn);
  planned_route : option (list RouteEntry);
  hoops_traversed : option (list RouteEntry);
  home_pose : option Point3;
  accepts : Command -> bool
}.

Definition set_planned_route (u : UAV) (route : list RouteEntry) : UAV :=
  mkUAV (local_position u) (vision u) (hoops_discovered u) (Some route)
        (hoops_traversed u) (home_pose u) (accepts u).

Definition set_hoops_traversed (u : UAV) (done : list RouteEntry) : UAV :=
  mkUAV (local_position u) (vision u) (hoops_discovered u) (planned_route u)
        (Some done) (home_pose u) (accepts u).

Definition set_home_pose (u : UAV) (p : Point3) : UAV :=
  mkUAV (local_position u) (vision u) (hoops_discovered u) (planned_route u)
        (hoops_traversed u) (Some p) (accepts u).

Definition set_hoops_discovered (u : UAV) (hs : list HoopIn) : UAV :=
  mkUAV (local_position u) (vision u) (Some hs) (planned_route u)
        (hoops_traversed u) (home_pose u) (accepts u).

End uav.

Abbreviation UAV := uav.UAV.

(** A call and, when it raises, the fallback tried in its [except]. *)
Definition try_else (u : UAV) (first : Command) (fallback : list Command)
  : list Command :=
  if uav.accepts u first then [first] else first :: fallback.

(** ** CenterInImage *)

Module CenterInImage.

Definition clamp (v lo hi : R) : R := py_max lo (py_min hi v).

(** Constructor arguments as stored; [vmax_yaw] is already in radians
    per second. *)
Record Config : Type := mkConfig {
  kx : R;
  ky : R;
  kz : R;
  kyaw : R;
  vmax_xy : R;
  vmax_z : R;
  vmax_yaw : R;
  hoop_center_tol_px : R;
  hoop_radius_target_px : R;
  timeout_s : R
}.

Record State : Type := mkState {
  start_time : option R
}.

(** [clock] is the node's clock reading in seconds, [None] when the
    node has no [get_clock]. *)
Definition on_enter (clock : option R) : State := mkState clock.

(** The body-frame velocity and yaw rate computed from one detection. *)
Definition control_law (c : Config) (u : UAV) (d : Detection)
  : R * R * R * R :=
  let ex := get (ex d) 0 in
  let ey := get (ey d) 0 in
  let vx := clamp (- kx c * ex) (- vmax_xy c) (vmax_xy c) in
  let vy := clamp (ky c * ey) (- vmax_xy c) (vmax_xy c) in
  let cur_z :=
    match uav.local_position u with Some p => pz p | None => 0 end in
  let z_target := cur_z in
  let vz := clamp (kz c * (z_target - cur_z)) (- vmax_z c) (vmax_z c) in
  let yaw_rate := clamp (kyaw c * ex) (- vmax_yaw c) (vmax_yaw c) in
  (vx, vy, vz, yaw_rate).

(** The calls attempted by one [on_update]. *)
Definition on_update (c : Config) (u : UAV) : list Command :=
  match or_nil (uav.vision u) with
  | [] => []
  | d :: _ =>
      let '(vx, vy, vz, yaw_rate) := control_law c u d in
      try_else u (PublishVelocitySetpoint vx vy vz yaw_rate)
               [SetVelocity vx vy vz]
  end.

(** [now] is the clock reading taken if the timeout branch is reached. *)
Definition check_status (c : Config) (s : State) (u : UAV) (now : R)
  : Status :=
  match or_nil (uav.vision u) with
  | [] => CONTINUE
  | d :: _ =>
      let ex := Rabs (get (ex d) 0) in
      let ey := Rabs (get (ey d) 0) in
      let radius := get (radius d) (get (r d) 0) in
      if Rleb ex (hoop_center_tol_px c)
         && Rleb ey (hoop_center_tol_px c)
         && Rleb (Rabs (radius - hoop_radius_target_px c))
                 (0.15 * hoop_radius_target_px c)
      then COMPLETE
      else
        match start_time s with
        | Some t0 =>
            if Rltb (timeout_s c) (now - t0) then COMPLETE else CONTINUE
        | None => CONTINUE
        end
  end.

(** The limits a command's velocity and yaw-rate components respect. *)
Definition within_limits (c : Config) (cmd : Command) : Prop :=
  match cmd with
  | PublishVelocitySetpoint vx vy _ yaw_rate =>
      Rabs vx <= vmax_xy c /\ Rabs vy <= vmax_xy c
      /\ Rabs yaw_rate <= vmax_yaw c
  | SetVelocity vx vy _ =>
      Rabs vx <= vmax_xy c /\ Rabs vy <= vmax_xy c
  | _ => True
  end.

End CenterInImage.

(** ** PlanRoute *)

(** [list.sort(key=...)]: Python's sort is stable, and a stable sort
    has one possible result, which this insertion sort computes: an
    element goes in front of the first element whose key is not
    smaller, so it stays ahead of the equal keys that followed it. *)
Section ListSort.

Context {A : Type} (key : A -> R).

Fixpoint insert_by (x : A) (l : list A) : list A :=
  match l with
  | [] => [x]
  | y :: t => if Rleb (key x) (key y) then x :: l else y :: insert_by x t
  end.

Fixpoint list_sort (l : list A) : list A :=
  match l with
  | [] => []
  | x :: t => insert_by x (list_sort t)
  end.

End ListSort.

Module PlanRoute.

(** [points]: the optional explicit point list; an element is [None]
    when its conversion to three floats raises. *)
Record Config : Type := mkConfig {
  pre_approach_dist : R;
  max_targets : Z;
  points : option (list (option Point3))
}.

Record State : Type := mkState {
  route : list RouteEntry
}.

(** The dicts [{'hoop', 'pos'}] of the list [centers]. *)
Record Center : Type := mkCenter {
  c_hoop : Detection;
  c_pos : Point3
}.

Definition hoops_of_points (ps : list (option Point3)) : list HoopIn :=
  flat_map (fun p => match p with
                     | Some xyz => [HDict (hoop_at xyz)]
                     | None => []
                     end) ps.

Definition input_hoops (c : Config) (u : UAV) : list HoopIn :=
  match points c with
  | Some (p :: ps) => hoops_of_points (p :: ps)
  | _ => or_nil (uav.hoops_discovered u)
  end.

Definition center_of (h : HoopIn) : list Center :=
  match h with
  | HDict d =>
      match position d with
      | Some pos => [mkCenter d pos]
      | None => []
      end
  | HSeq (Some pos) => [mkCenter (hoop_at pos) pos]
  | HSeq None => []
  | HOther => []
  end.

Definition centers (hoops : list HoopIn) : list Center :=
  flat_map center_of hoops.

(** The loop [while remaining and len(order) < self.max_targets].  Each
    iteration pops one element, so [fuel = len(remaining)] iterations
    are enough; the loop leaves through one of its two tests before the
    fuel is used up. *)
Fixpoint nn_loop (fuel : nat) (max_targets : Z) (cur_pos : Point3)
  (remaining order : list Center) : list Center :=
  match fuel with
  | O => order
  | S fuel' =>
      match remaining with
      | [] => order
      | _ :: _ =>
          if (Z.of_nat (length order) <? max_targets)%Z then
            match list_sort (fun c => dist cur_pos (c_pos c)) remaining with
            | [] => order
            | chosen :: rest =>
                nn_loop fuel' max_targets (c_pos chosen) rest
                        (order ++ [chosen])
            end
          else order
      end
  end.

Definition approach_normal (u : UAV) (item : Center) : Point3 :=
  let '(hx, hy, hz) := c_pos item in
  match bearing (c_hoop item) with
  | Some b => (cos b, sin b, 0)
  | None =>
      let '(sx, sy, _) := get (uav.home_pose u) (0, 0, 0) in
      let vx := hx - sx in
      let vy := hy - sy in
      let d := if Req_dec_T (hypot vx vy) 0 then 1 else hypot vx vy in
      (vx / d, vy / d, 0)
  end.

Definition plan_entry (c : Config) (u : UAV) (item : Center) : RouteEntry :=
  let '(hx, hy, hz) := c_pos item in
  let normal := approach_normal u item in
  let pre_x := hx - px normal * pre_approach_dist c in
  let pre_y := hy - py normal * pre_approach_dist c in
  let pre_z := hz in
  mkRouteEntry (c_hoop item) (pre_x, pre_y, pre_z) (c_pos item).

(** The list [order] built by [on_enter] when there are hoops. *)
Definition plan_order (c : Config) (u : UAV) : list Center :=
  let cs := centers (input_hoops c u) in
  let cur_pos := get (uav.local_position u) (0, 0, 0) in
  nn_loop (length cs) (max_targets c) cur_pos cs [].

Definition on_enter (c : Config) (u : UAV) : State * UAV :=
  match input_hoops c u with
  | [] => (mkState [], uav.set_planned_route u [])
  | _ :: _ =>
      let planned := map (plan_entry c u) (plan_order c u) in
      (mkState planned, uav.set_planned_route u planned)
  end.

Definition on_update (s : State) (time_delta : R) : list Command := [].

Definition check_status (s : State) : Status := COMPLETE.

(** *** The planner as the specification words it

    Select the remaining hoop at minimum distance from the reference
    point, the first-encountered one among equals, take it out of the
    remaining hoops (which otherwise stay as they are), and continue
    from its position, [n] times at most. *)
Fixpoint select_nearest (cur : Point3) (l : list Center)
  : option (Center * list Center) :=
  match l with
  | [] => None
  | x :: t =>
      match select_nearest cur t with
      | None => Some (x, [])
      | Some (m, rest) =>
          if Rleb (dist cur (c_pos x)) (dist cur (c_pos m))
          then Some (x, t)
          else Some (m, x :: rest)
      end
  end.

Fixpoint spec_order (n : nat) (cur : Point3) (remaining : list Center)
  : list Center :=
  match n with
  | O => []
  | S n' =>
      match select_nearest cur remaining with
      | None => []
      | Some (chosen, rest) => chosen :: spec_order n' (c_pos chosen) rest
      end
  end.

End PlanRoute.

(** ** GoToPreApproach *)

Module GoToPreApproach.

Record Config : Type := mkConfig {
  cruise_speed_mps : R;
  waypoint_tol_m : R
}.

Record State : Type := mkState {
  target : option Point3;
  target_hoop : option Detection
}.

Definition on_enter (s : State) (u : UAV) : State :=
  match or_nil (uav.planned_route u) with
  | [] => mkState None (target_hoop s)
  | item :: _ => mkState (Some (pre_approach item)) (Some (hoop item))
  end.

Definition on_update (s : State) (u : UAV) : list Command :=
  match target s with
  | None => []
  | Some t =>
      match target_hoop s with
      | Some h =>
          match bearing h with
          | Some b =>
              try_else u (PublishPositionSetpoint t (Some b))
                       [PublishPositionSetpoint t None]
          | None => [PublishPositionSetpoint t None]
          end
      | None => [PublishPositionSetpoint t None]
      end
  end.

Definition check_status (c : Config) (s : State) (u : UAV) : Status :=
  match target s with
  | None => COMPLETE
  | Some t =>
      match uav.local_position u with
      | None => CONTINUE
      | Some cur =>
          if Rleb (dist cur t) (waypoint_tol_m c) then COMPLETE else CONTINUE
      end
  end.

End GoToPreApproach.

(** ** CommitTraverse *)

Module CommitTraverse.

Record Config : Type := mkConfig {
  traverse_dist : R;
  traverse_speed : R
}.

(** [end_] is the attribute [self.end]. *)
Record State : Type := mkState {
  start : option Point3;
  end_ : option Point3
}.

Definition on_enter (c : Config) (s : State) (u : UAV) : State :=
  match or_nil (uav.planned_route u) with
  | [] => s
  | front :: _ =>
      let '(hx, hy, hz) := hoop_pos front in
      let normal :=
        match bearing (hoop front) with
        | Some b => (cos b, sin b, 0)
        | None => (0, 1, 0)
        end in
      mkState
        (Some (hx - px normal * 1, hy - py normal * 1, hz))
        (Some (hx + px normal * traverse_dist c,
               hy + py normal * traverse_dist c, hz))
  end.

Definition on_update (s : State) : list Command :=
  match end_ s with
  | None => []
  | Some e => [PublishPositionSetpoint e None]
  end.

(** [completed.append(route.pop(0))] and the two attribute writes. *)
Definition mark_traversed (u : UAV) : UAV :=
  let completed := or_nil (uav.hoops_traversed u) in
  match or_nil (uav.planned_route u) with
  | [] => u
  | front :: rest =>
      uav.set_planned_route
        (uav.set_hoops_traversed u (completed ++ [front])) rest
  end.

Definition check_status (s : State) (u : UAV) : Status * UAV :=
  match end_ s with
  | None => (COMPLETE, u)
  | Some e =>
      match uav.local_position u with
      | None => (CONTINUE, u)
      | Some cur =>
          if Rleb (dist cur e) 1 then (COMPLETE, mark_traversed u)
          else (CONTINUE, u)
      end
  end.

End CommitTraverse.

(** ** LaunchAndScan *)

Definition Detection_eq_dec (a b : Detection) : {a = b} + {a <> b}.
Proof. repeat decide equality; apply Req_dec_T. Defined.

(** [x in l] on a list of dicts (value equality). *)
Definition py_in (x : Detection) (l : list Detection) : bool :=
  if in_dec Detection_eq_dec x l then true else false.

Module LaunchAndScan.

Record Config : Type := mkConfig {
  takeoff_alt_m : R;
  spin_max_deg : R;
  spin_rate_dps : R;
  min_hoops_to_stop : Z;
  scan_step_deg : R
}.

(** [vision_node], when present, stands for the list of 3-tuples its
    [get_detections()] returns. *)
Record State : Type := mkState {
  collected : list Detection;
  start_yaw : option R;
  scanned_deg : R;
  last_time : option R;
  home_pose : option Point3;
  started : bool;
  vision_node : option (list Point3)
}.

(** [math.radians]. *)
Definition radians (deg : R) : R := deg * PI / 180.

(** [now] is the reading of [time()]. *)
Definition on_enter (c : Config) (s : State) (u : UAV) (now : R)
  : State * list Command :=
  (mkState [] (start_yaw s) 0 (Some now) (uav.local_position u)
           (started s) None,
   [OffboardHeartbeat; Arm]
   ++ try_else u (Takeoff (takeoff_alt_m c))
                 [PublishPositionSetpoint
                    (0, 0, - Rabs (takeoff_alt_m c)) None]).

(** [for d in dets: if d not in self.collected: self.collected.append(d)]. *)
Fixpoint collect (dets collected : list Detection) : list Detection :=
  match dets with
  | [] => collected
  | d :: rest =>
      collect rest (if py_in d collected then collected
                    else collected ++ [d])
  end.

Definition on_update (c : Config) (s : State) (u : UAV) (now : R)
  : State * UAV * list Command :=
  let yaw_rate_rad := radians (spin_rate_dps c) in
  let cmds :=
    try_else u (PublishVelocitySetpoint 0 0 0 yaw_rate_rad)
             [SetYawRate yaw_rate_rad] in
  let collected' :=
    match vision_node s with
    | Some dets => collect (map hoop_at dets) (collected s)
    | None => collect (or_nil (uav.vision u)) (collected s)
    end in
  let u' := uav.set_hoops_discovered u (map HDict collected') in
  (* [self.last_time or now]: a missing or zero reading gives [now] *)
  let last :=
    match last_time s with
    | Some t => if Req_dec_T t 0 then now else t
    | None => now
    end in
  let dt := now - last in
  (mkState collected' (start_yaw s)
           (scanned_deg s + Rabs (spin_rate_dps c) * dt)
           (Some now) (home_pose s) (started s) (vision_node s),
   u', cmds).

Definition drop_vision_node (s : State) : State :=
  mkState (collected s) (start_yaw s) (scanned_deg s) (last_time s)
          (home_pose s) (started s) None.

Definition check_status (c : Config) (s : State) (u : UAV)
  : Status * State * UAV :=
  if (Z.of_nat (length (collected s)) >=? min_hoops_to_stop c)%Z then
    let u' :=
      match uav.home_pose u, home_pose s with
      | None, Some p => uav.set_home_pose u p
      | _, _ => u
      end in
    (COMPLETE, drop_vision_node s, u')
  else if Rleb (spin_max_deg c) (scanned_deg s) then
    (COMPLETE, drop_vision_node s, u)
  else (CONTINUE, s, u).

End LaunchAndScan.

(** ** ReturnHome *)

Module ReturnHome.

Record Config : Type := mkConfig {
  tol : R
}.

(** [home] is the recorded home tuple or, failing that, the position
    object read on enter; both are taken by value (x, y, z): the
    vehicle is taken to replace its position object on every update
    rather than to change it in place. *)
Record State : Type := mkState {
  home : option Point3
}.

Definition on_enter (u : UAV) : State :=
  mkState (match uav.home_pose u with
           | Some p => Some p
           | None => uav.local_position u
           end).

Definition on_update (s : State) : list Command :=
  match home s with
  | None => []
  | Some h => [PublishPositionSetpoint (px h, py h, pz h) None]
  end.

(** [((cur[0]-hx)**2 + (cur[1]-hy)**2 + (cur[2]-hz)**2) ** 0.5]. *)
Definition check_status (c : Config) (s : State) (u : UAV) : Status :=
  match uav.local_position u, home s with
  | Some cur, Some h =>
      let dist := sqrt ((px cur - px h) ^ 2 + (py cur - py h) ^ 2
                        + (pz cur - pz h) ^ 2) in
      if Rleb dist (tol c) then COMPLETE else CONTINUE
  | _, _ => CONTINUE
  end.

End ReturnHome.

(** ** Predicates used in the statements *)

(** What [check_status] takes for "centred and at traverse distance". *)
Definition centred (c : CenterInImage.Config) (d : Detection) : Prop :=
  Rabs (get (ex d) 0) <= CenterInImage.hoop_center_tol_px c
  /\ Rabs (get (ey d) 0) <= CenterInImage.hoop_center_tol_px c
  /\ Rabs (get (radius d) (get (r d) 0)
           - CenterInImage.hoop_radius_target_px c)
     <= 0.15 * CenterInImage.hoop_radius_target_px c.


(** ** Runs of ticks *)

(** LaunchAndScan over successive ticks, each with the vehicle as it is
    then and the reading of [time()]. *)
Fixpoint scan_ticks (c : LaunchAndScan.Config) (s : LaunchAndScan.State)
  (frames : list (UAV * R)) : LaunchAndScan.State :=
  match frames with
  | [] => s
  | (u, now) :: rest =>
      scan_ticks c (fst (fst (LaunchAndScan.on_update c s u now))) rest
  end.

(** ** Greedy tours *)

(** Every hop of [visited], started from [cur], goes to a point that is
    no farther from where the hop starts than any point visited later
    or left [unvisited]. *)
Fixpoint greedy_hops (cur : Point3) (visited unvisited : list Point3)
  : Prop :=
  match visited with
  | [] => True
  | x :: later =>
      (forall y, In y (later ++ unvisited) -> dist cur x <= dist cur y)
      /\ greedy_hops x later unvisited
  end.
(** * Sample inputs *)

Definition all_accepted : Command -> bool := fun _ => true.

(** A vehicle at the origin that sees one off-centre detection. *)
Definition seeing_uav : UAV :=
  uav.mkUAV (Some (0, 0, 2))
            (Some [mkDetection None None (Some 50) (Some (-20)) (Some 60) None])
            None None None None all_accepted.

(** High gains: every raw output exceeds its limit. *)
Definition hot_config : CenterInImage.Config :=
  CenterInImage.mkConfig 100 100 0.5 100 1 0.5 0.5 8 80 12.

Definition default_center_config : CenterInImage.Config :=
  CenterInImage.mkConfig 0.002 0.002 0.5 0.01 1 0.5 0.5 8 80 12.

(** A vehicle whose vision accessor returns no detection. *)
Definition blind_uav : UAV :=
  uav.mkUAV (Some (1, 2, 3)) (Some []) None None None None all_accepted.

Definition default_scan_config : LaunchAndScan.Config :=
  LaunchAndScan.mkConfig 3 360 45 3 10.

Definition fresh_scan_state : LaunchAndScan.State :=
  LaunchAndScan.mkState [] None 0 None None false None.

(** Entering LaunchAndScan at time 100 and ticking once at time 108:
    eight seconds at 45 degrees per second. *)
Definition scan_entered : LaunchAndScan.State :=
  fst (LaunchAndScan.on_enter default_scan_config fresh_scan_state
         blind_uav 100).

Definition scan_ticked : LaunchAndScan.State * UAV * list Command :=
  LaunchAndScan.on_update default_scan_config scan_entered blind_uav 108.

(** A route of two hoops, the first to be crossed heading east. *)
Definition east_hoop : Detection :=
  mkDetection (Some (10, 0, 2)) (Some 0) None None None None.

Definition two_entries : list RouteEntry :=
  [mkRouteEntry east_hoop (6.5, 0, 2) (10, 0, 2);
   mkRouteEntry (hoop_at (0, 5, 2)) (0, 1.5, 2) (0, 5, 2)].

Definition default_commit_config : CommitTraverse.Config :=
  CommitTraverse.mkConfig 4 2.

Definition fresh_commit_state : CommitTraverse.State :=
  CommitTraverse.mkState None None.

(** The vehicle at the far end of the segment through a hoop at
    (0, 5, 2) crossed along the default normal, one entry traversed
    before. *)
Definition arrived_uav : UAV :=
  uav.mkUAV (Some (0, 9, 2)) None None
            (Some [mkRouteEntry (hoop_at (0, 5, 2)) (0, 1.5, 2) (0, 5, 2)])
            (Some [mkRouteEntry east_hoop (6.5, 0, 2) (10, 0, 2)])
            None all_accepted.

(** The same vehicle still at the origin. *)
Definition distant_uav : UAV :=
  uav.mkUAV (Some (0, 0, 2)) None None
            (Some [mkRouteEntry (hoop_at (0, 5, 2)) (0, 1.5, 2) (0, 5, 2)])
            (Some [mkRouteEntry east_hoop (6.5, 0, 2) (10, 0, 2)])
            None all_accepted.

(** A vehicle with an exhausted route and no pose estimate. *)
Definition done_uav : UAV :=
  uav.mkUAV None None None (Some []) (Some two_entries) None all_accepted.

(** A CommitTraverse instance that has flown one traverse: its end
    point is the one computed for a hoop at (0, 5, 2). *)
Definition used_commit_state : CommitTraverse.State :=
  CommitTraverse.on_enter default_commit_config fresh_commit_state
    arrived_uav.

(** The same exhausted route, the vehicle hovering at (0, 0, 2). *)
Definition stranded_uav : UAV :=
  uav.mkUAV (Some (0, 0, 2)) None None (Some []) (Some two_entries) None
            all_accepted.

(** Three hoops on the x axis, discovered in the order A, B, C; seen
    from C = (1, 0, 0), both A = (4, 0, 0) and B = (-2, 0, 0) are at
    distance 3, and B is the nearer of the two to the origin. *)
Definition hoop_A : Detection := hoop_at (4, 0, 0).
Definition hoop_B : Detection := hoop_at (-2, 0, 0).
Definition hoop_C : Detection := hoop_at (1, 0, 0).

Definition tie_uav : UAV :=
  uav.mkUAV (Some (0, 0, 0)) None
            (Some [HDict hoop_A; HDict hoop_B; HDict hoop_C])
            None None None all_accepted.

Definition default_plan_config : PlanRoute.Config :=
  PlanRoute.mkConfig 3.5 4 None.

(** A planner configured with a negative target count. *)
Definition negative_plan_config : PlanRoute.Config :=
  PlanRoute.mkConfig 3.5 (-1) None.

Definition center_A : PlanRoute.Center := PlanRoute.mkCenter hoop_A (4, 0, 0).
Definition center_B : PlanRoute.Center :=
  PlanRoute.mkCenter hoop_B (-2, 0, 0).
Definition center_C : PlanRoute.Center := PlanRoute.mkCenter hoop_C (1, 0, 0).

(** A hoop without bearing that sits above the home pose, and a
    vehicle whose home pose is recorded there. *)
Definition home_uav : UAV :=
  uav.mkUAV (Some (0, 0, 0)) None
            (Some [HDict (hoop_at (3, 4, 2)); HDict east_hoop])
            None None (Some (3, 4, 0)) all_accepted.

(** The five-hoop scenario: points supplied explicitly, one of them
    twice, four targets at most. *)
Definition scenario_config : PlanRoute.Config :=
  PlanRoute.mkConfig 3.5 4
    (Some [Some (0, 5, 0); Some (10, 5, 0); Some (0, 5, 0);
           Some (20, 0, 0); Some (30, 30, 0)]).

Definition origin_uav : UAV :=
  uav.mkUAV (Some (0, 0, 0)) None None None None None all_accepted.

Definition default_return_config : ReturnHome.Config :=
  ReturnHome.mkConfig 1.

(** A detection dead centre at the target apparent size. *)
Definition centred_uav : UAV :=
  uav.mkUAV (Some (0, 0, 2))
            (Some [mkDetection None None (Some 0) (Some 0) (Some 80) None])
            None None None None all_accepted.

Definition off_centre_detection : Detection :=
  mkDetection None None (Some 50) (Some (-20)) (Some 60) None.

(** A configuration whose horizontal limit has the wrong sign. *)
Definition reversed_center_config : CenterInImage.Config :=
  CenterInImage.mkConfig 0.002 0.002 0.5 0.01 (-1) 0.5 0.5 8 80 12.

(** Two ticks after entering the scan at time 100. *)
Definition two_scan_frames : list (UAV * R) :=
  [(blind_uav, 104); (blind_uav, 108)].

(** A vehicle at its launch point that sees three hoops at once. *)
Definition launch_uav : UAV :=
  uav.mkUAV (Some (1, 2, 3))
            (Some [hoop_at (4, 0, 0); hoop_at (-2, 0, 0); hoop_at (1, 0, 0)])
            None None None None all_accepted.

(** A scan that has swept its 360 degrees without collecting anything. *)
Definition exhausted_scan_state : LaunchAndScan.State :=
  LaunchAndScan.mkState [] None 360 (Some 108) (Some (1, 2, 3)) false None.

(** A scan satisfied with a single hoop. *)
Definition one_hoop_scan_config : LaunchAndScan.Config :=
  LaunchAndScan.mkConfig 3 360 45 1 10.

(** A single discovered hoop, to be crossed heading east. *)
Definition single_uav : UAV :=
  uav.mkUAV (Some (0, 0, 0)) None (Some [HDict east_hoop])
            None None None all_accepted.

Definition east_entry : RouteEntry :=
  PlanRoute.plan_entry default_plan_config single_uav
    (PlanRoute.mkCenter east_hoop (10, 0, 2)).

(** The vehicle after planning on [single_uav]. *)
Definition planned_uav : UAV :=
  uav.set_planned_route single_uav [east_entry].

Definition default_goto_config : GoToPreApproach.Config :=
  GoToPreApproach.mkConfig 2 0.8.

Definition fresh_goto_state : GoToPreApproach.State :=
  GoToPreApproach.mkState None None.

(** * Properties *)

(** ** Comparisons and clamping *)

Lemma Rleb_true (a b : R) : Rleb a b = true <-> a <= b.
Proof. unfold Rleb. destruct (Rle_dec a b); split; intros; try easy. Qed.

Lemma Rleb_false (a b : R) : Rleb a b = false <-> b < a.
Proof. unfold Rleb. destruct (Rle_dec a b); split; intros; try easy; lra. Qed.

Lemma Rltb_true (a b : R) : Rltb a b = true <-> a < b.
Proof. unfold Rltb. destruct (Rlt_dec a b); split; intros; try easy. Qed.

Lemma Rltb_false (a b : R) : Rltb a b = false <-> b <= a.
Proof. unfold Rltb. destruct (Rlt_dec a b); split; intros; try easy; lra. Qed.

(** Decide a comparison between two concrete reals. *)
Ltac Rcompare :=
  repeat match goal with
  | |- context [Rleb ?a ?b] =>
      let H := fresh in
      first [ assert (H : Rleb a b = true) by (apply Rleb_true; lra)
            | assert (H : Rleb a b = false) by (apply Rleb_false; lra) ];
      rewrite H; clear H
  | |- context [Rltb ?a ?b] =>
      let H := fresh in
      first [ assert (H : Rltb a b = true) by (apply Rltb_true; lra)
            | assert (H : Rltb a b = false) by (apply Rltb_false; lra) ];
      rewrite H; clear H
  end.

Lemma clamp_between (v m : R) :
  0 <= m -> - m <= CenterInImage.clamp v (- m) m <= m.
Proof.
  intros Hm. unfold CenterInImage.clamp, py_max, py_min.
  destruct (Rltb v m) eqn:E1.
  - apply Rltb_true in E1.
    destruct (Rltb (- m) v) eqn:E2.
    + apply Rltb_true in E2. lra.
    + lra.
  - destruct (Rltb (- m) m) eqn:E2; lra.
Qed.

Lemma clamp_abs (v m : R) :
  0 <= m -> Rabs (CenterInImage.clamp v (- m) m) <= m.
Proof.
  intros Hm. apply Rabs_le. now apply clamp_between.
Qed.

(** C2.  Every command issued by one tick of CenterInImage's control
    law carries clamped components, whatever the gains and the
    detection: when [vmax_xy] and [vmax_yaw] are not negative,
    |vx| <= vmax_xy, |vy| <= vmax_xy and |yaw_rate| <= vmax_yaw. *)
Theorem center_outputs_clamped (c : CenterInImage.Config) (u : UAV)
  (cmd : Command) :
  0 <= CenterInImage.vmax_xy c ->
  0 <= CenterInImage.vmax_yaw c ->
  In cmd (CenterInImage.on_update c u) ->
  CenterInImage.within_limits c cmd.
Proof.
  intros Hxy Hyaw. unfold CenterInImage.on_update.
  destruct (or_nil (uav.vision u)) as [|d dets]; [intros []|].
  unfold CenterInImage.control_law, try_else.
  pose proof (clamp_abs (- CenterInImage.kx c * get (ex d) 0) _ Hxy) as Hvx.
  pose proof (clamp_abs (CenterInImage.ky c * get (ey d) 0) _ Hxy) as Hvy.
  pose proof (clamp_abs (CenterInImage.kyaw c * get (ex d) 0) _ Hyaw) as Hw.
  destruct (uav.accepts u _); simpl;
    intros H; repeat (destruct H as [<-|H]; [simpl; auto|]); destruct H.
Qed.

Lemma center_outputs_clamped_witness :
  CenterInImage.on_update hot_config seeing_uav <> []
  /\ Forall (CenterInImage.within_limits hot_config)
            (CenterInImage.on_update hot_config seeing_uav).
Proof.
  split; [discriminate|].
  apply Forall_forall. intros cmd Hin.
  apply (center_outputs_clamped hot_config seeing_uav).
  - simpl. lra.
  - simpl. lra.
  - exact Hin.
Defined.

(** ** CenterInImage: the timeout *)

(** With a detection in view that is not centred, an elapsed time
    above the timeout completes the mode. *)
Lemma center_timeout_with_detection (c : CenterInImage.Config) (u : UAV)
  (t0 now : R) (d : Detection) (dets : list Detection) :
  uav.vision u = Some (d :: dets) ->
  CenterInImage.timeout_s c < now - t0 ->
  CenterInImage.check_status c (CenterInImage.mkState (Some t0)) u now
  = COMPLETE.
Proof.
  intros Hv Ht. unfold CenterInImage.check_status. rewrite Hv. simpl.
  apply Rltb_true in Ht. rewrite Ht.
  now destruct (_ && _).
Qed.

(** C3.  The timeout is not reached on a tick without detection:
    entered at time 0 with the default 12 s timeout, the mode still
    answers CONTINUE at time 100 when the vision accessor returns
    nothing; and so for every configuration, start time and reading of
    the clock. *)
Theorem center_timeout_skipped_without_detection :
  CenterInImage.check_status default_center_config
    (CenterInImage.on_enter (Some 0)) blind_uav 100 = CONTINUE
  /\ forall (c : CenterInImage.Config) (s : CenterInImage.State) (now : R),
       CenterInImage.check_status c s blind_uav now = CONTINUE.
Proof.
  split.
  - unfold CenterInImage.check_status. simpl. reflexivity.
  - intros c s now. unfold CenterInImage.check_status. simpl. reflexivity.
Qed.

(** ** LaunchAndScan *)

(** C7.  [check_status] answers COMPLETE exactly when the number of
    accumulated detections has reached [min_hoops_to_stop] or
    [scanned_deg] has reached [spin_max_deg], and CONTINUE otherwise. *)
Theorem scan_complete_iff (c : LaunchAndScan.Config)
  (s : LaunchAndScan.State) (u : UAV) :
  let status := fst (fst (LaunchAndScan.check_status c s u)) in
  let enough :=
    (Z.of_nat (length (LaunchAndScan.collected s))
     >= LaunchAndScan.min_hoops_to_stop c)%Z
    \/ LaunchAndScan.scanned_deg s >= LaunchAndScan.spin_max_deg c in
  (status = COMPLETE <-> enough) /\ (status = CONTINUE <-> ~ enough).
Proof.
  unfold LaunchAndScan.check_status. cbv zeta.
  destruct (Z.geb_spec (Z.of_nat (length (LaunchAndScan.collected s)))
              (LaunchAndScan.min_hoops_to_stop c)) as [Hn|Hn].
  - simpl. split; split; intros H; try easy.
    + left. lia.
    + exfalso. apply H. left. lia.
  - destruct (Rleb _ _) eqn:E; simpl.
    + apply Rleb_true in E. split; split; intros H; try easy.
      * right. lra.
      * exfalso. apply H. right. lra.
    + apply Rleb_false in E. split; split; intros H; try easy.
      * destruct H; [lia | lra].
      * intros [H'|H']; [lia | lra].
Qed.

(** C8.  The sweep-exhausted exit does not commit the home pose.  The
    mode is entered at (1, 2, 3) with no home pose recorded in the
    shared context, sees nothing for eight seconds at 45 deg/s, and
    completes on the 360 degree budget: it still holds the pose
    captured at enter time, and the shared home pose is still unset. *)
Theorem scan_exhausted_leaves_home_unset :
  let '(s1, u1, _) := scan_ticked in
  let '(status, s2, u2) :=
    LaunchAndScan.check_status default_scan_config s1 u1 in
  LaunchAndScan.scanned_deg s1 = 360
  /\ LaunchAndScan.collected s1 = []
  /\ status = COMPLETE
  /\ LaunchAndScan.home_pose s2 = Some (1, 2, 3)
  /\ uav.home_pose u1 = None
  /\ uav.home_pose u2 = None.
Proof.
  assert (Hdeg : LaunchAndScan.scanned_deg (fst (fst scan_ticked)) = 360).
  { unfold scan_ticked, LaunchAndScan.on_update. simpl.
    destruct (Req_dec_T 100 0) as [H|H]; [lra|].
    rewrite Rabs_pos_eq by lra. lra. }
  unfold scan_ticked in *. unfold LaunchAndScan.on_update in *.
  cbn [fst snd] in Hdeg.
  unfold LaunchAndScan.check_status.
  cbn [LaunchAndScan.collected LaunchAndScan.scanned_deg
       LaunchAndScan.home_pose LaunchAndScan.vision_node scan_entered
       LaunchAndScan.on_enter fst snd LaunchAndScan.collect or_nil
       uav.vision blind_uav length LaunchAndScan.min_hoops_to_stop
       default_scan_config LaunchAndScan.spin_max_deg] in *.
  rewrite Hdeg.
  replace (Z.of_nat 0 >=? 3)%Z with false by reflexivity.
  Rcompare. simpl. repeat split; auto.
Qed.

(** The detection-count exit does commit it. *)
Lemma scan_count_exit_commits_home (c : LaunchAndScan.Config)
  (s : LaunchAndScan.State) (u : UAV) (p : Point3) :
  (Z.of_nat (length (LaunchAndScan.collected s))
   >= LaunchAndScan.min_hoops_to_stop c)%Z ->
  uav.home_pose u = None ->
  LaunchAndScan.home_pose s = Some p ->
  uav.home_pose (snd (LaunchAndScan.check_status c s u)) = Some p.
Proof.
  intros Hn Hu Hs. unfold LaunchAndScan.check_status.
  destruct (Z.geb_spec (Z.of_nat (length (LaunchAndScan.collected s)))
              (LaunchAndScan.min_hoops_to_stop c)); [|lia].
  rewrite Hu, Hs. reflexivity.
Qed.

(** ** Distances on sample points *)

Lemma sqrt_of_square (a b : R) : 0 <= b -> a = b * b -> sqrt a = b.
Proof. intros Hb ->. now apply sqrt_square. Qed.

(** Evaluate [dist] between two concrete points whose distance is the
    given real. *)
Ltac dist_is v :=
  unfold dist; cbn [px py pz fst snd];
  apply (sqrt_of_square _ v); lra.

(** ** CommitTraverse *)

(** Entered with a route that is not empty, the mode has an end point. *)
Lemma commit_enter_sets_end (c : CommitTraverse.Config)
  (s : CommitTraverse.State) (u : UAV) (front : RouteEntry)
  (rest : list RouteEntry) :
  uav.planned_route u = Some (front :: rest) ->
  CommitTraverse.end_ (CommitTraverse.on_enter c s u) <> None.
Proof.
  intros Hr. unfold CommitTraverse.on_enter. rewrite Hr. simpl.
  destruct (hoop_pos front) as [[hx hy] hz]. discriminate.
Qed.

(** Whatever the state, COMPLETE with an end point set means the
    bookkeeping of [mark_traversed] was done. *)
Lemma commit_complete_marks (s : CommitTraverse.State) (u u' : UAV) :
  CommitTraverse.end_ s <> None ->
  CommitTraverse.check_status s u = (COMPLETE, u') ->
  u' = CommitTraverse.mark_traversed u.
Proof.
  unfold CommitTraverse.check_status.
  destruct (CommitTraverse.end_ s) as [e|]; [intros _|congruence].
  destruct (uav.local_position u) as [cur|]; [|discriminate].
  destruct (Rleb _ _); [|discriminate].
  now intros [= <-].
Qed.

(** C5.  In an activation entered with a route that is not empty, when
    [check_status] answers COMPLETE while the route is [front :: rest],
    the pop and the append have both happened: the route is [rest], the
    traversed list is the former one with [front] appended, one length
    went down by one and the other up by one. *)
Theorem commit_complete_moves_front (c : CommitTraverse.Config)
  (s : CommitTraverse.State) (u0 u u' : UAV) (e0 front : RouteEntry)
  (r0 rest : list RouteEntry) :
  uav.planned_route u0 = Some (e0 :: r0) ->
  uav.planned_route u = Some (front :: rest) ->
  CommitTraverse.check_status (CommitTraverse.on_enter c s u0) u
  = (COMPLETE, u') ->
  uav.planned_route u' = Some rest
  /\ uav.hoops_traversed u'
     = Some (or_nil (uav.hoops_traversed u) ++ [front])
  /\ length (or_nil (uav.planned_route u))
     = S (length (or_nil (uav.planned_route u')))
  /\ length (or_nil (uav.hoops_traversed u'))
     = S (length (or_nil (uav.hoops_traversed u)))
  /\ or_nil (uav.hoops_traversed u') ++ or_nil (uav.planned_route u')
     = or_nil (uav.hoops_traversed u) ++ or_nil (uav.planned_route u).
Proof.
  intros H0 Hr Hc.
  apply commit_complete_marks in Hc;
    [|now apply (commit_enter_sets_end c s u0 e0 r0)].
  subst u'. unfold CommitTraverse.mark_traversed. rewrite Hr. simpl.
  repeat split.
  - rewrite length_app. simpl. lia.
  - now rewrite <- app_assoc.
Qed.

Lemma commit_complete_moves_front_witness :
  uav.planned_route (CommitTraverse.mark_traversed arrived_uav) = Some []
  /\ uav.hoops_traversed (CommitTraverse.mark_traversed arrived_uav)
     = Some two_entries.
Proof.
  assert (Hd : dist (0, 9, 2) (0 + 0 * 4, 5 + 1 * 4, 2) = 0)
    by dist_is 0.
  destruct (commit_complete_moves_front default_commit_config
              fresh_commit_state arrived_uav arrived_uav
              (CommitTraverse.mark_traversed arrived_uav)
              (mkRouteEntry (hoop_at (0, 5, 2)) (0, 1.5, 2) (0, 5, 2))
              (mkRouteEntry (hoop_at (0, 5, 2)) (0, 1.5, 2) (0, 5, 2))
              [] [])
    as (Hroute & Hdone & _).
  - reflexivity.
  - reflexivity.
  - unfold CommitTraverse.check_status. cbn. rewrite Hd.
    Rcompare. reflexivity.
  - split; [exact Hroute | exact Hdone].
Defined.

(** C10.  When [check_status] answers CONTINUE the shared context is
    the one it was given: the planned route and the traversed-hoops
    list, in particular, are unchanged. *)
Theorem commit_continue_frame (s : CommitTraverse.State) (u u' : UAV) :
  CommitTraverse.check_status s u = (CONTINUE, u') ->
  u' = u
  /\ uav.planned_route u' = uav.planned_route u
  /\ uav.hoops_traversed u' = uav.hoops_traversed u.
Proof.
  unfold CommitTraverse.check_status.
  destruct (CommitTraverse.end_ s) as [e|]; [|discriminate].
  destruct (uav.local_position u) as [cur|].
  - destruct (Rleb _ _); [discriminate|].
    intros [= <-]. auto.
  - intros [= <-]. auto.
Qed.

(** CONTINUE is what the mode answers without a pose, and with a pose
    farther than the tolerance from the end point. *)
Lemma commit_continue_cases (s : CommitTraverse.State) (u : UAV)
  (e : Point3) :
  CommitTraverse.end_ s = Some e ->
  (uav.local_position u = None
   \/ exists cur, uav.local_position u = Some cur /\ 1 < dist cur e) ->
  CommitTraverse.check_status s u = (CONTINUE, u).
Proof.
  intros He H. unfold CommitTraverse.check_status. rewrite He.
  destruct H as [->|(cur & -> & Hd)]; [reflexivity|].
  apply Rleb_false in Hd. now rewrite Hd.
Qed.

Lemma commit_continue_frame_witness :
  uav.planned_route distant_uav = uav.planned_route distant_uav
  /\ CommitTraverse.check_status
       (CommitTraverse.on_enter default_commit_config fresh_commit_state
          distant_uav) distant_uav = (CONTINUE, distant_uav).
Proof.
  assert (Hd : dist (0, 0, 2) (0 + 0 * 4, 5 + 1 * 4, 2) = 9)
    by dist_is 9.
  assert (Hc : CommitTraverse.check_status
       (CommitTraverse.on_enter default_commit_config fresh_commit_state
          distant_uav) distant_uav = (CONTINUE, distant_uav)).
  { unfold CommitTraverse.check_status. cbn. rewrite Hd.
    Rcompare. reflexivity. }
  split; [|exact Hc].
  exact (proj1 (proj2 (commit_continue_frame _ _ _ Hc))).
Defined.

(** ** Activations with nothing to do *)

(** GoToPreApproach entered with an empty route completes at once and
    commands nothing, whatever state an earlier activation left. *)
Lemma goto_empty_route_completes (c : GoToPreApproach.Config)
  (s : GoToPreApproach.State) (u0 u : UAV) :
  or_nil (uav.planned_route u0) = [] ->
  let s' := GoToPreApproach.on_enter s u0 in
  GoToPreApproach.on_update s' u = []
  /\ GoToPreApproach.check_status c s' u = COMPLETE.
Proof.
  intros Hr. unfold GoToPreApproach.on_enter. rewrite Hr. split; reflexivity.
Qed.

(** PlanRoute with no input hoop plans the empty route, completes at
    once and commands nothing. *)
Lemma plan_empty_input_completes (c : PlanRoute.Config) (u : UAV)
  (dt : R) :
  PlanRoute.input_hoops c u = [] ->
  let '(s', u') := PlanRoute.on_enter c u in
  PlanRoute.route s' = []
  /\ uav.planned_route u' = Some []
  /\ PlanRoute.on_update s' dt = []
  /\ PlanRoute.check_status s' = COMPLETE.
Proof.
  intros Hi. unfold PlanRoute.on_enter. rewrite Hi. repeat split.
Qed.

(** CommitTraverse entered with an empty route keeps the state it had:
    a first activation completes at once and commands nothing. *)
Lemma commit_empty_route_fresh (c : CommitTraverse.Config)
  (s : CommitTraverse.State) (u0 u : UAV) :
  or_nil (uav.planned_route u0) = [] ->
  CommitTraverse.end_ s = None ->
  let s' := CommitTraverse.on_enter c s u0 in
  CommitTraverse.on_update s' = []
  /\ CommitTraverse.check_status s' u = (COMPLETE, u).
Proof.
  intros Hr He. unfold CommitTraverse.on_enter. rewrite Hr. cbv zeta.
  unfold CommitTraverse.on_update, CommitTraverse.check_status.
  rewrite He. split; reflexivity.
Qed.

(** C9.  A CommitTraverse instance that has flown a traverse and is
    entered again, now with an empty route, keeps the end point of the
    earlier activation: [on_update] commands a position setpoint there
    and [check_status] answers CONTINUE, without a pose estimate as
    well as with the vehicle nine units away from that point. *)
Theorem commit_reentered_empty_route_stalls :
  uav.planned_route done_uav = Some []
  /\ uav.planned_route stranded_uav = Some []
  /\ let s' := CommitTraverse.on_enter default_commit_config
                 used_commit_state done_uav in
     s' = CommitTraverse.on_enter default_commit_config
            used_commit_state stranded_uav
     /\ CommitTraverse.end_ s' = Some (0 + 0 * 4, 5 + 1 * 4, 2)
     /\ CommitTraverse.on_update s'
        = [PublishPositionSetpoint (0 + 0 * 4, 5 + 1 * 4, 2) None]
     /\ CommitTraverse.check_status s' done_uav = (CONTINUE, done_uav)
     /\ CommitTraverse.check_status s' stranded_uav
        = (CONTINUE, stranded_uav).
Proof.
  assert (Hd : dist (0, 0, 2) (0 + 0 * 4, 5 + 1 * 4, 2) = 9)
    by dist_is 9.
  repeat split.
  unfold CommitTraverse.check_status. cbn. rewrite Hd.
  Rcompare. reflexivity.
Qed.

(** ** The stable sort *)

Section ListSortFacts.

Context {A : Type} (key : A -> R).

Lemma insert_by_perm (x : A) (l : list A) :
  Permutation (insert_by key x l) (x :: l).
Proof.
  induction l as [|y t IH]; simpl; [reflexivity|].
  destruct (Rleb (key x) (key y)); [reflexivity|].
  rewrite IH. apply perm_swap.
Qed.

Lemma list_sort_perm (l : list A) : Permutation (list_sort key l) l.
Proof.
  induction l as [|x t IH]; simpl; [reflexivity|].
  rewrite insert_by_perm. now constructor.
Qed.

Lemma list_sort_length (l : list A) : length (list_sort key l) = length l.
Proof. apply Permutation_length, list_sort_perm. Qed.

(** An element not above any element of a list is inserted in front. *)
Lemma insert_by_front (x : A) (l : list A) :
  (forall y, In y l -> key x <= key y) ->
  insert_by key x l = x :: l.
Proof.
  destruct l as [|y t]; intros H; simpl; [reflexivity|].
  assert (E : Rleb (key x) (key y) = true)
    by (apply Rleb_true, H; now left).
  now rewrite E.
Qed.

(** The sort brings to the front the first of the elements of least
    key, and sorts the others behind it. *)
Lemma list_sort_first_min (l1 l2 : list A) (m : A) :
  (forall y, In y l1 -> key m < key y) ->
  (forall y, In y l2 -> key m <= key y) ->
  list_sort key (l1 ++ m :: l2) = m :: list_sort key (l1 ++ l2).
Proof.
  intros H1 H2. induction l1 as [|a l1 IH]; simpl.
  - apply insert_by_front. intros y Hy. apply H2.
    now apply (Permutation_in _ (list_sort_perm l2)).
  - rewrite IH by (intros y Hy; apply H1; now right).
    simpl.
    assert (E : Rleb (key a) (key m) = false)
      by (apply Rleb_false, H1; now left).
    now rewrite E.
Qed.

(** Every list that is not empty splits around the first of its
    elements of least key. *)
Lemma first_min_split (x : A) (l : list A) :
  exists l1 m l2,
    x :: l = l1 ++ m :: l2
    /\ (forall y, In y l1 -> key m < key y)
    /\ (forall y, In y l2 -> key m <= key y).
Proof.
  revert x. induction l as [|z t IH]; intros x.
  - exists [], x, []. repeat split; intros y [].
  - destruct (IH z) as (l1 & m & l2 & E & H1 & H2).
    destruct (Rle_dec (key x) (key m)) as [Hle|Hgt].
    + exists [], x, (z :: t). repeat split; [intros y []|].
      intros y Hy. rewrite E in Hy. apply in_app_or in Hy.
      destruct Hy as [Hy|[<-|Hy]].
      * specialize (H1 y Hy). lra.
      * exact Hle.
      * specialize (H2 y Hy). lra.
    + exists (x :: l1), m, l2. repeat split.
      * simpl. now rewrite E.
      * intros y [<-|Hy]; [lra | now apply H1].
      * exact H2.
Qed.

End ListSortFacts.

(** ** PlanRoute: the order of the route *)

(** The loop has fuel to spare: any two amounts of fuel that cover the
    remaining hoops give the same order, so the loop always leaves
    through one of its own tests. *)
Lemma nn_loop_fuel (f1 f2 : nat) (mt : Z) (cur : Point3)
  (remaining order : list PlanRoute.Center) :
  (length remaining <= f1)%nat -> (length remaining <= f2)%nat ->
  PlanRoute.nn_loop f1 mt cur remaining order
  = PlanRoute.nn_loop f2 mt cur remaining order.
Proof.
  revert f2 cur remaining order.
  induction f1 as [|f1 IH]; intros f2 cur remaining order H1 H2.
  - destruct remaining; [|simpl in H1; lia]. now destruct f2.
  - destruct f2 as [|f2].
    + destruct remaining; [reflexivity | simpl in H2; lia].
    + simpl. destruct remaining as [|x t]; [reflexivity|].
      destruct (_ <? _)%Z; [|reflexivity].
      pose proof (list_sort_length
                    (fun c => dist cur (PlanRoute.c_pos c)) (x :: t)) as Hl.
      destruct (list_sort _ (x :: t)) as [|chosen rest]; [reflexivity|].
      simpl in Hl, H1, H2. apply IH; lia.
Qed.


(** The order is an initial segment of a rearrangement of the centers,
    behind what was already chosen. *)
Lemma nn_loop_perm (fuel : nat) (mt : Z) (cur : Point3)
  (remaining order : list PlanRoute.Center) :
  exists left_over,
    Permutation (PlanRoute.nn_loop fuel mt cur remaining order ++ left_over)
                (order ++ remaining).
Proof.
  revert cur remaining order.
  induction fuel as [|fuel IH]; intros cur remaining order; simpl.
  - now exists remaining.
  - destruct remaining as [|x t].
    + now exists [].
    + destruct (_ <? _)%Z; [|now exists (x :: t)].
      pose proof (list_sort_perm
                    (fun c => dist cur (PlanRoute.c_pos c)) (x :: t)) as Hp.
      destruct (list_sort _ (x :: t)) as [|chosen rest].
      * now exists (x :: t).
      * destruct (IH (PlanRoute.c_pos chosen) rest (order ++ [chosen]))
          as (lo & Hlo).
        exists lo. rewrite Hlo, <- app_assoc. simpl.
        now apply Permutation_app_head.
Qed.

Lemma nn_loop_length (fuel : nat) (mt : Z) (cur : Point3)
  (remaining order : list PlanRoute.Center) :
  (Z.of_nat (length (PlanRoute.nn_loop fuel mt cur remaining order))
   <= Z.max (Z.of_nat (length order)) mt)%Z.
Proof.
  revert cur remaining order.
  induction fuel as [|fuel IH]; intros cur remaining order; simpl; [lia|].
  destruct remaining as [|x t]; [lia|].
  destruct (Z.ltb_spec (Z.of_nat (length order)) mt) as [Hlt|Hge]; [|lia].
  destruct (list_sort _ (x :: t)) as [|chosen rest]; [lia|].
  specialize (IH (PlanRoute.c_pos chosen) rest (order ++ [chosen])).
  rewrite length_app in IH. simpl in IH. lia.
Qed.


(** The route written by [on_enter] is the order of the loop, entry by
    entry, also when there is no input hoop. *)
Lemma on_enter_route (c : PlanRoute.Config) (u : UAV) :
  PlanRoute.route (fst (PlanRoute.on_enter c u))
  = map (PlanRoute.plan_entry c u) (PlanRoute.plan_order c u)
  /\ uav.planned_route (snd (PlanRoute.on_enter c u))
     = Some (PlanRoute.route (fst (PlanRoute.on_enter c u))).
Proof.
  unfold PlanRoute.on_enter, PlanRoute.plan_order.
  destruct (PlanRoute.input_hoops c u); split; reflexivity.
Qed.

(** On the three hoops A, B, C the code visits C, B, A. *)
Lemma tie_plan_order :
  PlanRoute.plan_order default_plan_config tie_uav
  = [center_C; center_B; center_A].
Proof.
  assert (d0A : dist (0, 0, 0) (4, 0, 0) = 4) by dist_is 4.
  assert (d0B : dist (0, 0, 0) (-2, 0, 0) = 2) by dist_is 2.
  assert (d0C : dist (0, 0, 0) (1, 0, 0) = 1) by dist_is 1.
  assert (dCA : dist (1, 0, 0) (4, 0, 0) = 3) by dist_is 3.
  assert (dCB : dist (1, 0, 0) (-2, 0, 0) = 3) by dist_is 3.
  unfold PlanRoute.plan_order.
  repeat progress (cbn -[dist Rleb];
                   rewrite ?d0A, ?d0B, ?d0C, ?dCA, ?dCB; Rcompare).
  reflexivity.
Qed.

(** Selection in input order visits C, A, B. *)
Lemma tie_spec_order :
  PlanRoute.spec_order 4 (0, 0, 0) [center_A; center_B; center_C]
  = [center_C; center_A; center_B].
Proof.
  assert (d0A : dist (0, 0, 0) (4, 0, 0) = 4) by dist_is 4.
  assert (d0B : dist (0, 0, 0) (-2, 0, 0) = 2) by dist_is 2.
  assert (d0C : dist (0, 0, 0) (1, 0, 0) = 1) by dist_is 1.
  assert (dCA : dist (1, 0, 0) (4, 0, 0) = 3) by dist_is 3.
  assert (dCB : dist (1, 0, 0) (-2, 0, 0) = 3) by dist_is 3.
  repeat progress (cbn -[dist Rleb];
                   rewrite ?d0A, ?d0B, ?d0C, ?dCA, ?dCB; Rcompare).
  reflexivity.
Qed.


(** ** PlanRoute: size of the route and distinct hoops *)

Lemma plan_entry_hoop (c : PlanRoute.Config) (u : UAV)
  (item : PlanRoute.Center) :
  hoop (PlanRoute.plan_entry c u item) = PlanRoute.c_hoop item
  /\ hoop_pos (PlanRoute.plan_entry c u item) = PlanRoute.c_pos item.
Proof.
  unfold PlanRoute.plan_entry.
  destruct (PlanRoute.c_pos item) as [[hx hy] hz]. split; reflexivity.
Qed.

Lemma route_hoops (c : PlanRoute.Config) (u : UAV) :
  map hoop (PlanRoute.route (fst (PlanRoute.on_enter c u)))
  = map PlanRoute.c_hoop (PlanRoute.plan_order c u).
Proof.
  rewrite (proj1 (on_enter_route c u)), map_map.
  apply map_ext. intros item. apply plan_entry_hoop.
Qed.

(** C6, as the code has it.  The route written to the shared context
    has at most [max_targets] entries when [max_targets] is not
    negative, and none otherwise; its hoop records are taken from the
    input records without using any of them twice: together with some
    unused records they rearrange the input, so a route over distinct
    records holds distinct records. *)
Theorem plan_route_bounded_distinct (c : PlanRoute.Config) (u : UAV) :
  let route := PlanRoute.route (fst (PlanRoute.on_enter c u)) in
  let records :=
    map PlanRoute.c_hoop (PlanRoute.centers (PlanRoute.input_hoops c u)) in
  uav.planned_route (snd (PlanRoute.on_enter c u)) = Some route
  /\ (Z.of_nat (length route) <= Z.max 0 (PlanRoute.max_targets c))%Z
  /\ (exists unused, Permutation (map hoop route ++ unused) records)
  /\ (NoDup records -> NoDup (map hoop route)).
Proof.
  cbv zeta.
  assert (Hperm : exists unused,
            Permutation
              (map hoop (PlanRoute.route (fst (PlanRoute.on_enter c u)))
               ++ unused)
              (map PlanRoute.c_hoop
                 (PlanRoute.centers (PlanRoute.input_hoops c u)))).
  { rewrite route_hoops. unfold PlanRoute.plan_order.
    destruct (nn_loop_perm
                (length (PlanRoute.centers (PlanRoute.input_hoops c u)))
                (PlanRoute.max_targets c)
                (get (uav.local_position u) (0, 0, 0))
                (PlanRoute.centers (PlanRoute.input_hoops c u)) [])
      as (lo & Hlo).
    exists (map PlanRoute.c_hoop lo).
    rewrite <- map_app. now apply Permutation_map. }
  split; [apply on_enter_route|]. split; [|split; [exact Hperm|]].
  - rewrite <- (length_map hoop), route_hoops, length_map.
    apply (nn_loop_length _ _ _ _ []).
  - intros Hnd. destruct Hperm as (unused & Hp).
    apply Permutation_sym in Hp.
    apply (Permutation_NoDup Hp) in Hnd.
    now apply NoDup_app_remove_r in Hnd.
Qed.

Lemma plan_route_bounded_distinct_witness :
  NoDup (map hoop (PlanRoute.route
                     (fst (PlanRoute.on_enter default_plan_config tie_uav)))).
Proof.
  apply (plan_route_bounded_distinct default_plan_config tie_uav).
  assert (HAB : hoop_A <> hoop_B).
  { intros H. apply (f_equal position) in H. simpl in H.
    injection H as H. lra. }
  assert (HAC : hoop_A <> hoop_C).
  { intros H. apply (f_equal position) in H. simpl in H.
    injection H as H. lra. }
  assert (HBC : hoop_B <> hoop_C).
  { intros H. apply (f_equal position) in H. simpl in H.
    injection H as H. lra. }
  simpl. repeat constructor; simpl; intuition congruence.
Defined.

(** C6 as stated fails for a negative [max_targets]: the route is
    empty, and its zero entries are more than -1. *)
Lemma negative_max_targets_exceeded :
  PlanRoute.route (fst (PlanRoute.on_enter negative_plan_config tie_uav))
  = []
  /\ ~ (Z.of_nat
          (length (PlanRoute.route
                     (fst (PlanRoute.on_enter negative_plan_config tie_uav))))
        <= PlanRoute.max_targets negative_plan_config)%Z.
Proof.
  assert (E : PlanRoute.route
                (fst (PlanRoute.on_enter negative_plan_config tie_uav)) = [])
    by reflexivity.
  split; [exact E|]. rewrite E. simpl. lia.
Qed.

(** ** PlanRoute: approach normal and pre-approach point *)

Lemma hypot_zero (x y : R) : hypot x y = 0 <-> x = 0 /\ y = 0.
Proof.
  unfold hypot. split.
  - intros H. apply sqrt_eq_0 in H; nra.
  - intros [-> ->]. replace (0 * 0 + 0 * 0) with 0 by lra. apply sqrt_0.
Qed.

Lemma hypot_square (x y : R) : hypot x y * hypot x y = x * x + y * y.
Proof. unfold hypot. apply sqrt_sqrt. nra. Qed.

Lemma center_position (hoops : list HoopIn) (item : PlanRoute.Center) :
  In item (PlanRoute.centers hoops) ->
  position (PlanRoute.c_hoop item) = Some (PlanRoute.c_pos item).
Proof.
  unfold PlanRoute.centers. rewrite in_flat_map.
  intros (h & _ & Hin). destruct h as [d|[p|]|]; simpl in Hin.
  - destruct (position d) eqn:E; simpl in Hin; [|easy].
    destruct Hin as [<-|[]]. exact E.
  - destruct Hin as [<-|[]]. reflexivity.
  - easy.
  - easy.
Qed.

Lemma plan_order_in (c : PlanRoute.Config) (u : UAV)
  (item : PlanRoute.Center) :
  In item (PlanRoute.plan_order c u) ->
  In item (PlanRoute.centers (PlanRoute.input_hoops c u)).
Proof.
  unfold PlanRoute.plan_order. intros Hin.
  destruct (nn_loop_perm
              (length (PlanRoute.centers (PlanRoute.input_hoops c u)))
              (PlanRoute.max_targets c)
              (get (uav.local_position u) (0, 0, 0))
              (PlanRoute.centers (PlanRoute.input_hoops c u)) [])
    as (lo & Hlo).
  apply (Permutation_in _ Hlo). apply in_or_app. now left.
Qed.

(** C4, as the code has it.  Every entry of the planned route keeps
    the position of its hoop, and its pre-approach point is that
    position minus
    [pre_approach_dist] times an approach normal [n], with the z
    coordinate of the hoop.  With a bearing th, [n] is
    (cos th, sin th, 0).  Without one, [n] is the vector from the
    (x, y) of the home pose to the (x, y) of the hoop divided by its
    length, a unit vector; when that vector has zero length the divisor
    is 1 instead and [n] is the fixed vector (0, 0, 0). *)
Theorem route_entry_geometry (c : PlanRoute.Config) (u : UAV)
  (e : RouteEntry) :
  In e (PlanRoute.route (fst (PlanRoute.on_enter c u))) ->
  let hx := px (hoop_pos e) in
  let hy := py (hoop_pos e) in
  let hz := pz (hoop_pos e) in
  let vx := hx - px (get (uav.home_pose u) (0, 0, 0)) in
  let vy := hy - py (get (uav.home_pose u) (0, 0, 0)) in
  position (hoop e) = Some (hoop_pos e)
  /\ exists n : Point3,
       pre_approach e
       = (hx - px n * PlanRoute.pre_approach_dist c,
          hy - py n * PlanRoute.pre_approach_dist c, hz)
       /\ (forall th, bearing (hoop e) = Some th ->
             n = (cos th, sin th, 0))
       /\ (bearing (hoop e) = None -> ~ (vx = 0 /\ vy = 0) ->
             n = (vx / hypot vx vy, vy / hypot vx vy, 0)
             /\ px n * px n + py n * py n + pz n * pz n = 1)
       /\ (bearing (hoop e) = None -> vx = 0 -> vy = 0 ->
             n = (0, 0, 0)).
Proof.
  rewrite (proj1 (on_enter_route c u)), in_map_iff.
  intros (item & <- & Hin). cbv zeta.
  destruct (plan_entry_hoop c u item) as [-> ->].
  split; [apply (center_position _ _ (plan_order_in _ _ _ Hin))|].
  exists (PlanRoute.approach_normal u item).
  unfold PlanRoute.plan_entry, PlanRoute.approach_normal.
  destruct (PlanRoute.c_pos item) as [[hx hy] hz].
  destruct (get (uav.home_pose u) (0, 0, 0)) as [[sx sy] sz].
  cbn [px py pz fst snd pre_approach].
  split; [reflexivity|].
  destruct (bearing (PlanRoute.c_hoop item)) as [b|].
  - split; [now intros th [= <-]|]. split; discriminate.
  - split; [discriminate|].
    destruct (Req_dec_T (hypot (hx - sx) (hy - sy)) 0) as [Hz|Hnz].
    + apply hypot_zero in Hz. destruct Hz as [Hx Hy]. split.
      * intros _ H. now destruct H.
      * intros _ _ _. rewrite Hx, Hy.
        replace (0 / 1) with 0 by lra. reflexivity.
    + split.
      * intros _ _. split; [reflexivity|].
        cbn [px py pz fst snd].
        pose proof (hypot_square (hx - sx) (hy - sy)) as Hsq.
        set (d := hypot (hx - sx) (hy - sy)) in *.
        replace ((hx - sx) / d * ((hx - sx) / d)
                 + (hy - sy) / d * ((hy - sy) / d) + 0 * 0)
          with (((hx - sx) * (hx - sx) + (hy - sy) * (hy - sy)) / (d * d))
          by (field; exact Hnz).
        rewrite <- Hsq. field. exact Hnz.
      * intros _ Hx Hy. exfalso. apply Hnz. now apply hypot_zero.
Qed.

Lemma route_entry_geometry_witness :
  In (mkRouteEntry (hoop_at (3, 4, 2)) (3, 4, 2) (3, 4, 2))
     (PlanRoute.route
        (fst (PlanRoute.on_enter default_plan_config home_uav)))
  /\ position (hoop_at (3, 4, 2)) = Some (3, 4, 2).
Proof.
  assert (d0 : dist (0, 0, 0) (3, 4, 2) <= dist (0, 0, 0) (10, 0, 2)).
  { unfold dist. apply sqrt_le_1_alt. cbn [px py pz fst snd]. lra. }
  assert (Hh : hypot (3 - 3) (4 - 4) = 0) by (apply hypot_zero; lra).
  assert (Hin : In (mkRouteEntry (hoop_at (3, 4, 2)) (3, 4, 2) (3, 4, 2))
                   (PlanRoute.route
                      (fst (PlanRoute.on_enter default_plan_config
                              home_uav)))).
  { rewrite (proj1 (on_enter_route _ _)).
    unfold PlanRoute.plan_order. cbn -[dist Rleb hypot Req_dec_T].
    apply Rleb_true in d0. rewrite d0. cbn -[dist Rleb hypot Req_dec_T].
    left. unfold PlanRoute.plan_entry, PlanRoute.approach_normal.
    cbn -[dist Rleb hypot Req_dec_T].
    destruct (Req_dec_T (hypot (3 - 3) (4 - 4)) 0) as [_|Hn];
      [|now destruct Hn].
    cbn [px py fst snd].
    replace (3 - (3 - 3) / 1 * 3.5) with 3 by lra.
    replace (4 - (4 - 4) / 1 * 3.5) with 4 by lra.
    reflexivity. }
  split; [exact Hin|].
  exact (proj1 (route_entry_geometry default_plan_config home_uav _ Hin)).
Defined.

(** A hoop without bearing right above the home pose is planned by
    [home_uav]'s route, with the hoop itself as pre-approach point. *)
Lemma home_hoop_planned :
  In (mkRouteEntry (hoop_at (3, 4, 2)) (3, 4, 2) (3, 4, 2))
     (PlanRoute.route
        (fst (PlanRoute.on_enter default_plan_config home_uav))).
Proof.
  assert (d0 : dist (0, 0, 0) (3, 4, 2) <= dist (0, 0, 0) (10, 0, 2)).
  { unfold dist. apply sqrt_le_1_alt. cbn [px py pz fst snd]. lra. }
  rewrite (proj1 (on_enter_route _ _)).
  unfold PlanRoute.plan_order. cbn -[dist Rleb hypot Req_dec_T].
  apply Rleb_true in d0. rewrite d0. cbn -[dist Rleb hypot Req_dec_T].
  left. unfold PlanRoute.plan_entry, PlanRoute.approach_normal.
  cbn -[dist Rleb hypot Req_dec_T].
  destruct (Req_dec_T (hypot (3 - 3) (4 - 4)) 0) as [_|Hn];
    [|destruct Hn; apply hypot_zero; lra].
  cbn [px py fst snd].
  replace (3 - (3 - 3) / 1 * 3.5) with 3 by lra.
  replace (4 - (4 - 4) / 1 * 3.5) with 4 by lra.
  reflexivity.
Qed.

(** C4 as stated fails for a hoop without bearing whose (x, y) is that
    of the home pose.  Home pose (3, 4, 0), hoop at (3, 4, 2), standoff
    3.5: the code replaces the zero divisor by 1 and keeps the zero
    vector, so the approach normal of the planned entry is (0, 0, 0),
    which is no unit vector, and the pre-approach point is the hoop
    itself, at distance 0 and not 3.5 from it. *)
Lemma hoop_over_home_has_no_standoff :
  let item := PlanRoute.mkCenter (hoop_at (3, 4, 2)) (3, 4, 2) in
  let e := PlanRoute.plan_entry default_plan_config home_uav item in
  let n := PlanRoute.approach_normal home_uav item in
  In e (PlanRoute.route
          (fst (PlanRoute.on_enter default_plan_config home_uav)))
  /\ bearing (hoop e) = None
  /\ px (hoop_pos e) = px (get (uav.home_pose home_uav) (0, 0, 0))
  /\ py (hoop_pos e) = py (get (uav.home_pose home_uav) (0, 0, 0))
  /\ n = (0, 0, 0)
  /\ px n * px n + py n * py n + pz n * pz n <> 1
  /\ pre_approach e = hoop_pos e
  /\ dist (pre_approach e) (hoop_pos e)
     <> Rabs (PlanRoute.pre_approach_dist default_plan_config).
Proof.
  cbv zeta.
  assert (Hn : PlanRoute.approach_normal home_uav
                 (PlanRoute.mkCenter (hoop_at (3, 4, 2)) (3, 4, 2))
               = (0, 0, 0)).
  { unfold PlanRoute.approach_normal. cbn -[hypot Req_dec_T].
    destruct (Req_dec_T (hypot (3 - 3) (4 - 4)) 0) as [_|H];
      [|destruct H; apply hypot_zero; lra].
    replace ((3 - 3) / 1) with 0 by lra.
    replace ((4 - 4) / 1) with 0 by lra.
    reflexivity. }
  assert (He : PlanRoute.plan_entry default_plan_config home_uav
                 (PlanRoute.mkCenter (hoop_at (3, 4, 2)) (3, 4, 2))
               = mkRouteEntry (hoop_at (3, 4, 2)) (3, 4, 2) (3, 4, 2)).
  { unfold PlanRoute.plan_entry. rewrite Hn.
    cbn [PlanRoute.c_pos PlanRoute.c_hoop px py fst snd
         PlanRoute.pre_approach_dist default_plan_config].
    replace (3 - 0 * 3.5) with 3 by lra.
    replace (4 - 0 * 3.5) with 4 by lra.
    reflexivity. }
  rewrite He, Hn. cbn [hoop hoop_pos pre_approach px py pz fst snd].
  assert (Hd : dist (3, 4, 2) (3, 4, 2) = 0) by dist_is 0.
  repeat split.
  - exact home_hoop_planned.
  - intros H. lra.
  - rewrite Hd. intros H. simpl in H.
    rewrite Rabs_pos_eq in H; lra.
Qed.

(** ** The five-hoop scenario *)

Lemma Rleb_sqrt (a b : R) :
  0 <= a -> 0 <= b -> Rleb (sqrt a) (sqrt b) = Rleb a b.
Proof.
  intros Ha Hb. destruct (Rleb a b) eqn:E.
  - apply Rleb_true. apply Rleb_true in E. now apply sqrt_le_1_alt.
  - apply Rleb_false. apply Rleb_false in E. apply sqrt_lt_1_alt. lra.
Qed.

(** From the origin the planner visits the two records at (0, 5, 0),
    then (10, 5, 0), then (20, 0, 0), and leaves (30, 30, 0) out. *)
Lemma scenario_route :
  map hoop_pos
      (PlanRoute.route (fst (PlanRoute.on_enter scenario_config origin_uav)))
  = [(0, 5, 0); (0, 5, 0); (10, 5, 0); (20, 0, 0)].
Proof.
  rewrite (proj1 (on_enter_route _ _)), map_map.
  rewrite (map_ext _ PlanRoute.c_pos)
    by (intros item; apply plan_entry_hoop).
  unfold PlanRoute.plan_order.
  repeat progress (cbn -[dist Rleb];
                   unfold dist; cbn [px py pz fst snd];
                   rewrite ?Rleb_sqrt by nra; Rcompare).
  reflexivity.
Qed.

(** ** ReturnHome *)

Lemma dist_self (p : Point3) : dist p p = 0.
Proof.
  unfold dist.
  replace ((px p - px p) * (px p - px p) + (py p - py p) * (py p - py p)
           + (pz p - pz p) * (pz p - pz p)) with 0 by ring.
  apply sqrt_0.
Qed.

Lemma dist_nonneg (p q : Point3) : 0 <= dist p q.
Proof. apply sqrt_pos. Qed.

(** The distance ReturnHome computes by hand is [math.dist]. *)
Lemma return_home_distance (cur h : Point3) :
  sqrt ((px cur - px h) ^ 2 + (py cur - py h) ^ 2 + (pz cur - pz h) ^ 2)
  = dist cur h.
Proof. unfold dist. f_equal. ring. Qed.

(** X1.  ReturnHome, entered on [u0], completes on a later tick exactly when
    the vehicle has a pose within [tol] of the home resolved on enter:
    the recorded home pose of [u0] or, when none is recorded, the
    position [u0] had on enter. *)
Theorem return_home_complete_iff (c : ReturnHome.Config) (u0 u : UAV) :
  ReturnHome.check_status c (ReturnHome.on_enter u0) u = COMPLETE
  <-> exists cur h,
        uav.local_position u = Some cur
        /\ (uav.home_pose u0 = Some h
            \/ (uav.home_pose u0 = None /\ uav.local_position u0 = Some h))
        /\ dist cur h <= ReturnHome.tol c.
Proof.
  unfold ReturnHome.check_status, ReturnHome.on_enter.
  cbn [ReturnHome.home].
  destruct (uav.local_position u) as [cur|].
  - destruct (uav.home_pose u0) as [h|] eqn:Eh.
    + rewrite return_home_distance. destruct (Rleb _ _) eqn:E.
      * apply Rleb_true in E. split; [|reflexivity].
        intros _. exists cur, h. auto.
      * apply Rleb_false in E. split; [discriminate|].
        intros (cur' & h' & [= <-] & [[= <-]|[? _]] & Hd);
          [lra | discriminate].
    + destruct (uav.local_position u0) as [h|] eqn:Ep.
      * rewrite return_home_distance. destruct (Rleb _ _) eqn:E.
        -- apply Rleb_true in E. split; [|reflexivity].
           intros _. exists cur, h. auto.
        -- apply Rleb_false in E. split; [discriminate|].
           intros (cur' & h' & [= <-] & [?|[_ [= <-]]] & Hd);
             [discriminate | lra].
      * split; [discriminate|].
        intros (cur' & h' & _ & [?|[_ ?]] & _); discriminate.
  - split; [discriminate|].
    intros (cur' & h' & ? & _); discriminate.
Qed.

(** X2.  Entered without a recorded home pose, ReturnHome takes the current
    position as home: while the vehicle stays there it completes on the
    spot when [tol] is not negative, and never when it is. *)
Theorem return_home_fallback_completes (c : ReturnHome.Config) (u : UAV)
  (p : Point3) :
  uav.home_pose u = None ->
  uav.local_position u = Some p ->
  ReturnHome.on_update (ReturnHome.on_enter u)
  = [PublishPositionSetpoint p None]
  /\ (ReturnHome.check_status c (ReturnHome.on_enter u) u = COMPLETE
      <-> 0 <= ReturnHome.tol c).
Proof.
  intros Hh Hp. split.
  - unfold ReturnHome.on_update, ReturnHome.on_enter. rewrite Hh, Hp. simpl.
    now destruct p as [[x y] z].
  - unfold ReturnHome.check_status, ReturnHome.on_enter.
    rewrite Hh, Hp. cbn [ReturnHome.home].
    rewrite return_home_distance, dist_self.
    destruct (Rleb 0 (ReturnHome.tol c)) eqn:E.
    + apply Rleb_true in E. tauto.
    + apply Rleb_false in E. split; [discriminate | lra].
Qed.

(** X3.  Entered with neither a recorded home pose nor a position,
    ReturnHome has no home: it commands nothing and no later tick
    completes it, whatever the vehicle reports then. *)
Theorem return_home_without_home_stalls (c : ReturnHome.Config)
  (u0 u : UAV) :
  uav.home_pose u0 = None ->
  uav.local_position u0 = None ->
  ReturnHome.on_update (ReturnHome.on_enter u0) = []
  /\ ReturnHome.check_status c (ReturnHome.on_enter u0) u = CONTINUE.
Proof.
  intros Hh Hp. unfold ReturnHome.on_update, ReturnHome.check_status,
    ReturnHome.on_enter. rewrite Hh, Hp. simpl.
  split; [reflexivity|]. now destruct (uav.local_position u).
Qed.

Lemma return_home_fallback_completes_witness :
  ReturnHome.check_status default_return_config
    (ReturnHome.on_enter blind_uav) blind_uav = COMPLETE.
Proof.
  apply (return_home_fallback_completes default_return_config blind_uav
           (1, 2, 3)); [reflexivity | reflexivity | simpl; lra].
Defined.

Lemma return_home_without_home_stalls_witness :
  ReturnHome.check_status default_return_config
    (ReturnHome.on_enter done_uav) blind_uav = CONTINUE.
Proof.
  apply (return_home_without_home_stalls default_return_config done_uav
           blind_uav); reflexivity.
Defined.

(** ** CenterInImage: the whole decision *)

(** X4.  CenterInImage completes exactly when there is a detection and
    either its first one is centred at the target size, or the mode has
    a start time and more than [timeout_s] has passed since.  Later
    detections of the same tick play no part. *)
Theorem center_complete_iff (c : CenterInImage.Config)
  (s : CenterInImage.State) (u : UAV) (now : R) :
  CenterInImage.check_status c s u now = COMPLETE
  <-> exists d rest,
        or_nil (uav.vision u) = d :: rest
        /\ (centred c d
            \/ exists t0, CenterInImage.start_time s = Some t0
                          /\ CenterInImage.timeout_s c < now - t0).
Proof.
  unfold CenterInImage.check_status, centred.
  destruct (or_nil (uav.vision u)) as [|d rest].
  - split; [discriminate | intros (? & ? & ? & _); discriminate].
  - destruct (Rleb (Rabs (get (ex d) 0)) _) eqn:E1;
    destruct (Rleb (Rabs (get (ey d) 0)) _) eqn:E2;
    destruct (Rleb (Rabs (get (radius d) (get (r d) 0) - _)) _) eqn:E3;
    cbn [andb];
    try (apply Rleb_true in E1); try (apply Rleb_false in E1);
    try (apply Rleb_true in E2); try (apply Rleb_false in E2);
    try (apply Rleb_true in E3); try (apply Rleb_false in E3).
    1: { split; [|reflexivity]. intros _. exists d, rest. auto. }
    all: destruct (CenterInImage.start_time s) as [t0|];
      [ destruct (Rltb _ _) eqn:Et;
        [ apply Rltb_true in Et; split; [|reflexivity];
          intros _; exists d, rest; split; [reflexivity|];
          right; exists t0; auto
        | apply Rltb_false in Et; split; [discriminate|];
          intros (d' & rest' & [= <- <-] & [(H1 & H2 & H3)|(t & [= <-] & Ht)]);
          lra ]
      | split; [discriminate|];
        intros (d' & rest' & [= <- <-] & [(H1 & H2 & H3)|(t & Hs & _)]);
        [lra | discriminate] ].
Qed.

(** ** CenterInImage: the clamp and the control law *)

Lemma clamp_zero (m : R) : 0 <= m -> CenterInImage.clamp 0 (- m) m = 0.
Proof.
  intros Hm. unfold CenterInImage.clamp, py_max, py_min.
  destruct (Rltb 0 m) eqn:E1;
    try (apply Rltb_true in E1); try (apply Rltb_false in E1);
    match goal with
    | |- context [Rltb ?a ?b] =>
        destruct (Rltb a b) eqn:E2;
        try (apply Rltb_true in E2); try (apply Rltb_false in E2)
    end; lra.
Qed.

(** X5.  With limits in order, [clamp] saturates at the nearer limit and is
    the identity in between. *)
Theorem clamp_saturates (v lo hi : R) :
  lo <= hi ->
  (v <= lo -> CenterInImage.clamp v lo hi = lo)
  /\ (lo <= v <= hi -> CenterInImage.clamp v lo hi = v)
  /\ (hi <= v -> CenterInImage.clamp v lo hi = hi).
Proof.
  intros Hlh. unfold CenterInImage.clamp, py_max, py_min.
  repeat split; intros H;
    destruct (Rltb v hi) eqn:E1;
    try (apply Rltb_true in E1); try (apply Rltb_false in E1);
    match goal with
    | |- context [Rltb ?a ?b] =>
        destruct (Rltb a b) eqn:E2;
        try (apply Rltb_true in E2); try (apply Rltb_false in E2)
    end; lra.
Qed.

Lemma clamp_saturates_witness :
  CenterInImage.clamp 7 (- 1) 1 = 1.
Proof.
  apply (clamp_saturates 7 (- 1) 1); lra.
Defined.

(** With the limits the wrong way round, [clamp] answers its lower
    limit whatever the value. *)
Lemma clamp_inverted_limits (v lo hi : R) :
  hi < lo -> CenterInImage.clamp v lo hi = lo.
Proof.
  intros Hlh. unfold CenterInImage.clamp, py_max, py_min.
  destruct (Rltb v hi) eqn:E1;
    try (apply Rltb_true in E1); try (apply Rltb_false in E1);
    match goal with
    | |- context [Rltb ?a ?b] =>
        destruct (Rltb a b) eqn:E2;
        try (apply Rltb_true in E2); try (apply Rltb_false in E2)
    end; lra.
Qed.

(** X6.  A negative [vmax_xy] does not limit anything: the law then commands
    vx = vy = -vmax_xy, a positive speed, for every detection and every
    gain. *)
Theorem center_negative_limit_constant (c : CenterInImage.Config) (u : UAV)
  (d : Detection) :
  CenterInImage.vmax_xy c < 0 ->
  let '(vx, vy, _, _) := CenterInImage.control_law c u d in
  vx = - CenterInImage.vmax_xy c /\ vy = - CenterInImage.vmax_xy c.
Proof.
  intros Hneg. unfold CenterInImage.control_law.
  split; apply clamp_inverted_limits; lra.
Qed.

(** X7.  The vertical channel is inert: the target altitude is the current
    one, so the commanded vz is 0 for every detection, gain and pose as
    long as [vmax_z] is not negative. *)
Theorem center_vz_zero (c : CenterInImage.Config) (u : UAV)
  (d : Detection) :
  0 <= CenterInImage.vmax_z c ->
  let '(_, _, vz, _) := CenterInImage.control_law c u d in vz = 0.
Proof.
  intros Hz. unfold CenterInImage.control_law.
  set (cur_z := match uav.local_position u with
                | Some p => pz p
                | None => 0
                end).
  replace (CenterInImage.kz c * (cur_z - cur_z)) with 0 by ring.
  now apply clamp_zero.
Qed.

(** X8.  A detection without pixel error (the keys absent or 0) commands no
    motion at all, whatever the gains, when no limit is negative. *)
Theorem center_no_error_no_motion (c : CenterInImage.Config) (u : UAV)
  (d : Detection) :
  get (ex d) 0 = 0 -> get (ey d) 0 = 0 ->
  0 <= CenterInImage.vmax_xy c ->
  0 <= CenterInImage.vmax_z c ->
  0 <= CenterInImage.vmax_yaw c ->
  CenterInImage.control_law c u d = (0, 0, 0, 0).
Proof.
  intros Hex Hey Hxy Hz Hyaw.
  unfold CenterInImage.control_law. rewrite Hex, Hey.
  set (cur_z := match uav.local_position u with
                | Some p => pz p
                | None => 0
                end).
  replace (- CenterInImage.kx c * 0) with 0 by ring.
  replace (CenterInImage.ky c * 0) with 0 by ring.
  replace (CenterInImage.kyaw c * 0) with 0 by ring.
  replace (CenterInImage.kz c * (cur_z - cur_z)) with 0 by ring.
  now rewrite !clamp_zero.
Qed.

Lemma center_negative_limit_constant_witness :
  let '(vx, vy, _, _) :=
    CenterInImage.control_law reversed_center_config seeing_uav
      off_centre_detection in
  vx = - CenterInImage.vmax_xy reversed_center_config
  /\ vy = - CenterInImage.vmax_xy reversed_center_config.
Proof.
  apply (center_negative_limit_constant reversed_center_config seeing_uav
           off_centre_detection).
  simpl. lra.
Defined.

Lemma center_vz_zero_witness :
  let '(_, _, vz, _) :=
    CenterInImage.control_law default_center_config seeing_uav
      off_centre_detection in
  vz = 0.
Proof.
  apply (center_vz_zero default_center_config seeing_uav
           off_centre_detection).
  simpl. lra.
Defined.

Lemma center_no_error_no_motion_witness :
  CenterInImage.on_update default_center_config centred_uav
  = [PublishVelocitySetpoint 0 0 0 0].
Proof.
  unfold CenterInImage.on_update. cbn [or_nil uav.vision centred_uav].
  rewrite (center_no_error_no_motion default_center_config centred_uav);
    try reflexivity; simpl; lra.
Defined.

(** ** LaunchAndScan: collecting detections *)

Lemma py_in_true (x : Detection) (l : list Detection) :
  py_in x l = true <-> In x l.
Proof. unfold py_in. destruct (in_dec _ x l); split; intros; easy. Qed.

Lemma collect_prefix (dets col : list Detection) :
  exists extra, LaunchAndScan.collect dets col = col ++ extra.
Proof.
  revert col. induction dets as [|d rest IH]; intros col; simpl.
  - exists []. now rewrite app_nil_r.
  - destruct (py_in d col).
    + apply IH.
    + destruct (IH (col ++ [d])) as (extra & ->).
      exists (d :: extra). now rewrite <- app_assoc.
Qed.

Lemma collect_in (dets col : list Detection) (x : Detection) :
  In x (LaunchAndScan.collect dets col) <-> In x col \/ In x dets.
Proof.
  revert col. induction dets as [|d rest IH]; intros col; simpl.
  - tauto.
  - rewrite IH. destruct (py_in d col) eqn:E.
    + apply py_in_true in E. split; [tauto|].
      intros [H|[<-|H]]; tauto.
    + rewrite in_app_iff. simpl. tauto.
Qed.

Lemma collect_nodup (dets col : list Detection) :
  NoDup col -> NoDup (LaunchAndScan.collect dets col).
Proof.
  revert col. induction dets as [|d rest IH]; intros col Hnd; simpl.
  - exact Hnd.
  - destruct (py_in d col) eqn:E; apply IH; [exact Hnd|].
    assert (Hn : ~ In d col).
    { intros H. apply py_in_true in H. congruence. }
    apply NoDup_app; [exact Hnd | repeat constructor; intros [] |].
    intros a Ha [<-|[]]. contradiction.
Qed.

(** X9.  One tick of LaunchAndScan only appends to the accumulated
    detections: what was collected stays in place, no value is collected
    twice, the detections of the tick are all there afterwards (and
    nothing else is added), and the accumulated list is what is
    published as [hoops_discovered]. *)
Theorem scan_update_accumulates (c : LaunchAndScan.Config)
  (s : LaunchAndScan.State) (u : UAV) (now : R) :
  let '(s', u', _) := LaunchAndScan.on_update c s u now in
  (exists extra,
     LaunchAndScan.collected s' = LaunchAndScan.collected s ++ extra)
  /\ (NoDup (LaunchAndScan.collected s) ->
      NoDup (LaunchAndScan.collected s'))
  /\ (LaunchAndScan.vision_node s = None ->
      forall d, In d (LaunchAndScan.collected s')
                <-> In d (LaunchAndScan.collected s)
                    \/ In d (or_nil (uav.vision u)))
  /\ uav.hoops_discovered u'
     = Some (map HDict (LaunchAndScan.collected s')).
Proof.
  unfold LaunchAndScan.on_update.
  cbn [LaunchAndScan.collected uav.hoops_discovered
       uav.set_hoops_discovered].
  repeat split.
  - destruct (LaunchAndScan.vision_node s); apply collect_prefix.
  - intros Hnd. destruct (LaunchAndScan.vision_node s);
      now apply collect_nodup.
  - rewrite H. intros Hin. now apply collect_in.
  - rewrite H. intros Hin. now apply collect_in.
Qed.

(** ** LaunchAndScan: the scanned angle *)

Lemma last_cons {A : Type} (a d : A) (l : list A) :
  last (a :: l) d = last l a.
Proof.
  revert a d. induction l as [|b l IH]; intros a d; [reflexivity|].
  change (last (a :: b :: l) d) with (last (b :: l) d).
  now rewrite !IH.
Qed.

Lemma scan_update_clock (c : LaunchAndScan.Config)
  (s : LaunchAndScan.State) (u : UAV) (now t0 : R) :
  LaunchAndScan.last_time s = Some t0 -> t0 <> 0 ->
  let s' := fst (fst (LaunchAndScan.on_update c s u now)) in
  LaunchAndScan.last_time s' = Some now
  /\ LaunchAndScan.scanned_deg s'
     = LaunchAndScan.scanned_deg s
       + Rabs (LaunchAndScan.spin_rate_dps c) * (now - t0).
Proof.
  intros Ht Hnz. unfold LaunchAndScan.on_update. simpl. rewrite Ht.
  destruct (Req_dec_T t0 0); [contradiction|]. split; reflexivity.
Qed.

(** X10.  Over any run of ticks the scanned angle grows by the spin rate
    times the time elapsed between the last clock reading before the
    run and the last one of the run, provided no reading is 0 (a zero
    reading is taken for a missing one). *)
Theorem scan_angle_telescopes (c : LaunchAndScan.Config)
  (s : LaunchAndScan.State) (frames : list (UAV * R)) (t0 : R) :
  LaunchAndScan.last_time s = Some t0 -> t0 <> 0 ->
  Forall (fun f => snd f <> 0) frames ->
  LaunchAndScan.scanned_deg (scan_ticks c s frames)
  = LaunchAndScan.scanned_deg s
    + Rabs (LaunchAndScan.spin_rate_dps c)
      * (last (map snd frames) t0 - t0).
Proof.
  intros Ht Hnz Hall. revert s t0 Ht Hnz.
  induction Hall as [|[u now] rest Hnow _ IH]; intros s t0 Ht Hnz.
  - simpl. lra.
  - destruct (scan_update_clock c s u now t0 Ht Hnz) as [Hl Hs].
    cbn [scan_ticks map snd]. rewrite last_cons.
    rewrite (IH _ now Hl Hnow), Hs. simpl. lra.
Qed.

Lemma scan_angle_telescopes_witness :
  LaunchAndScan.scanned_deg
    (scan_ticks default_scan_config scan_entered two_scan_frames)
  = LaunchAndScan.scanned_deg scan_entered
    + Rabs (LaunchAndScan.spin_rate_dps default_scan_config)
      * (last (map snd two_scan_frames) 100 - 100).
Proof.
  apply (scan_angle_telescopes default_scan_config scan_entered
           two_scan_frames 100).
  - reflexivity.
  - lra.
  - repeat constructor; simpl; lra.
Defined.

(** ** LaunchAndScan: completion *)

Lemma scan_update_scanned_mono (c : LaunchAndScan.Config)
  (s : LaunchAndScan.State) (u : UAV) (now : R) :
  (forall t, LaunchAndScan.last_time s = Some t -> t <= now) ->
  LaunchAndScan.scanned_deg s
  <= LaunchAndScan.scanned_deg
       (fst (fst (LaunchAndScan.on_update c s u now))).
Proof.
  intros Hclock. unfold LaunchAndScan.on_update. simpl.
  pose proof (Rabs_pos (LaunchAndScan.spin_rate_dps c)) as Hr.
  destruct (LaunchAndScan.last_time s) as [t|].
  - specialize (Hclock t eq_refl).
    destruct (Req_dec_T t 0); nra.
  - nra.
Qed.

(** X11.  Completion is stable: once [check_status] would answer COMPLETE, it
    still does after any further tick whose clock reading is not
    earlier than the previous one. *)
Theorem scan_complete_stable (c : LaunchAndScan.Config)
  (s : LaunchAndScan.State) (u u1 u2 : UAV) (now : R) :
  fst (fst (LaunchAndScan.check_status c s u)) = COMPLETE ->
  (forall t, LaunchAndScan.last_time s = Some t -> t <= now) ->
  fst (fst (LaunchAndScan.check_status c
              (fst (fst (LaunchAndScan.on_update c s u1 now))) u2))
  = COMPLETE.
Proof.
  intros Hc Hclock.
  pose proof (scan_update_scanned_mono c s u1 now Hclock) as Hs.
  assert (Hl : (length (LaunchAndScan.collected s)
                <= length (LaunchAndScan.collected
                             (fst (fst (LaunchAndScan.on_update c s u1 now)))))%nat).
  { unfold LaunchAndScan.on_update. cbn [fst LaunchAndScan.collected].
    destruct (LaunchAndScan.vision_node s);
      match goal with
      | |- context [LaunchAndScan.collect ?d ?l] =>
          destruct (collect_prefix d l) as (extra & ->)
      end; rewrite length_app; lia. }
  unfold LaunchAndScan.check_status in *.
  destruct (Z.geb_spec (Z.of_nat (length (LaunchAndScan.collected s)))
              (LaunchAndScan.min_hoops_to_stop c)) as [Hn|Hn].
  - destruct (Z.geb_spec
                (Z.of_nat (length (LaunchAndScan.collected
                   (fst (fst (LaunchAndScan.on_update c s u1 now))))))
                (LaunchAndScan.min_hoops_to_stop c)); [reflexivity | lia].
  - destruct (Rleb (LaunchAndScan.spin_max_deg c)
                   (LaunchAndScan.scanned_deg s)) eqn:E;
      [|discriminate Hc].
    apply Rleb_true in E.
    destruct (Z.geb_spec
                (Z.of_nat (length (LaunchAndScan.collected
                   (fst (fst (LaunchAndScan.on_update c s u1 now))))))
                (LaunchAndScan.min_hoops_to_stop c)); [reflexivity|].
    assert (E' : Rleb (LaunchAndScan.spin_max_deg c)
                   (LaunchAndScan.scanned_deg
                      (fst (fst (LaunchAndScan.on_update c s u1 now))))
                 = true)
      by (apply Rleb_true; lra).
    now rewrite E'.
Qed.

(** X12.  [check_status] never replaces a recorded home pose, touches no
    other shared field in any case, and changes nothing at all when it
    answers CONTINUE. *)
Theorem scan_status_frame (c : LaunchAndScan.Config)
  (s : LaunchAndScan.State) (u : UAV) :
  let '(status, s', u') := LaunchAndScan.check_status c s u in
  (forall p, uav.home_pose u = Some p -> u' = u)
  /\ uav.local_position u' = uav.local_position u
  /\ uav.vision u' = uav.vision u
  /\ uav.hoops_discovered u' = uav.hoops_discovered u
  /\ uav.planned_route u' = uav.planned_route u
  /\ uav.hoops_traversed u' = uav.hoops_traversed u
  /\ (status = CONTINUE -> s' = s /\ u' = u).
Proof.
  unfold LaunchAndScan.check_status.
  destruct (_ >=? _)%Z.
  - destruct (uav.home_pose u) as [h|] eqn:Eh.
    + repeat split; auto; discriminate.
    + destruct (LaunchAndScan.home_pose s) as [p|];
        repeat split; auto; discriminate.
  - destruct (Rleb _ _); repeat split; auto; discriminate.
Qed.

(** X13.  A scan that has just been entered answers CONTINUE exactly when
    both thresholds are positive: entering resets the accumulated
    detections and the scanned angle, whatever an earlier activation
    left. *)
Theorem scan_fresh_continues_iff (c : LaunchAndScan.Config)
  (s : LaunchAndScan.State) (u u' : UAV) (now : R) :
  fst (fst (LaunchAndScan.check_status c
              (fst (LaunchAndScan.on_enter c s u now)) u'))
  = CONTINUE
  <-> (0 < LaunchAndScan.min_hoops_to_stop c)%Z
      /\ 0 < LaunchAndScan.spin_max_deg c.
Proof.
  unfold LaunchAndScan.check_status, LaunchAndScan.on_enter.
  cbn [fst LaunchAndScan.collected LaunchAndScan.scanned_deg length].
  destruct (Z.geb_spec (Z.of_nat 0) (LaunchAndScan.min_hoops_to_stop c))
    as [Hn|Hn]; cbn [fst].
  - split; [discriminate|]. intros [H _]. lia.
  - destruct (Rleb _ _) eqn:E; cbn [fst].
    + apply Rleb_true in E. split; [discriminate|]. intros [_ H]. lra.
    + apply Rleb_false in E. split; [|reflexivity]. intros _. split; [lia|lra].
Qed.

Lemma scan_complete_stable_witness :
  fst (fst (LaunchAndScan.check_status default_scan_config
              (fst (fst (LaunchAndScan.on_update default_scan_config
                           exhausted_scan_state launch_uav 110)))
              blind_uav))
  = COMPLETE.
Proof.
  apply (scan_complete_stable default_scan_config exhausted_scan_state
           blind_uav launch_uav blind_uav 110).
  - unfold LaunchAndScan.check_status. simpl. Rcompare. reflexivity.
  - intros t [= <-]. lra.
Defined.

(** ** LaunchAndScan, then ReturnHome *)

Lemma scan_ticks_home (c : LaunchAndScan.Config) (s : LaunchAndScan.State)
  (frames : list (UAV * R)) :
  LaunchAndScan.home_pose (scan_ticks c s frames)
  = LaunchAndScan.home_pose s.
Proof.
  revert s. induction frames as [|[u now] rest IH]; intros s;
    [reflexivity|].
  cbn [scan_ticks]. now rewrite IH.
Qed.

(** X14.  A scan entered where the vehicle stands, with no home pose recorded
    yet, that ends on its detection count after any number of ticks,
    hands ReturnHome the position of the launch: that is where
    ReturnHome flies, wherever the vehicle is by then. *)
Theorem scan_count_exit_sets_return_target (c : LaunchAndScan.Config)
  (s0 : LaunchAndScan.State) (u0 u : UAV) (t0 : R)
  (frames : list (UAV * R)) (p : Point3) :
  uav.local_position u0 = Some p ->
  uav.home_pose u = None ->
  let s := scan_ticks c (fst (LaunchAndScan.on_enter c s0 u0 t0)) frames in
  (Z.of_nat (length (LaunchAndScan.collected s))
   >= LaunchAndScan.min_hoops_to_stop c)%Z ->
  let '(status, _, u') := LaunchAndScan.check_status c s u in
  status = COMPLETE
  /\ ReturnHome.on_update (ReturnHome.on_enter u')
     = [PublishPositionSetpoint p None].
Proof.
  intros Hp Hh s Hn.
  assert (Hs : LaunchAndScan.home_pose s = Some p).
  { unfold s. rewrite scan_ticks_home. exact Hp. }
  unfold LaunchAndScan.check_status.
  destruct (Z.geb_spec (Z.of_nat (length (LaunchAndScan.collected s)))
              (LaunchAndScan.min_hoops_to_stop c)); [|lia].
  rewrite Hh, Hs. split; [reflexivity|].
  unfold ReturnHome.on_update, ReturnHome.on_enter. simpl.
  now destruct p as [[x y] z].
Qed.

Lemma scan_count_exit_sets_return_target_witness :
  let '(status, _, u') :=
    LaunchAndScan.check_status one_hoop_scan_config
      (scan_ticks one_hoop_scan_config
         (fst (LaunchAndScan.on_enter one_hoop_scan_config
                 fresh_scan_state launch_uav 100))
         [(launch_uav, 101)])
      stranded_uav in
  status = COMPLETE
  /\ ReturnHome.on_update (ReturnHome.on_enter u')
     = [PublishPositionSetpoint (1, 2, 3) None].
Proof.
  apply (scan_count_exit_sets_return_target one_hoop_scan_config
           fresh_scan_state launch_uav stranded_uav 100
           [(launch_uav, 101)] (1, 2, 3)).
  - reflexivity.
  - reflexivity.
  - cbn [scan_ticks]. unfold LaunchAndScan.on_update.
    cbn [fst LaunchAndScan.collected LaunchAndScan.vision_node
         LaunchAndScan.on_enter or_nil uav.vision launch_uav].
    match goal with
    | |- context [LaunchAndScan.collect ?d ?l] =>
        assert (Hin : In (hoop_at (4, 0, 0)) (LaunchAndScan.collect d l))
          by (apply collect_in; right; left; reflexivity);
        destruct (LaunchAndScan.collect d l); [destruct Hin|]
    end.
    simpl. lia.
Defined.



(** ** PlanRoute: how many hoops, and in which order *)

Lemma nn_loop_length_exact (fuel : nat) (mt : Z) (cur : Point3)
  (remaining order : list PlanRoute.Center) :
  (length remaining <= fuel)%nat ->
  Z.of_nat (length (PlanRoute.nn_loop fuel mt cur remaining order))
  = (Z.of_nat (length order)
     + Z.min (Z.max 0 (mt - Z.of_nat (length order)))
             (Z.of_nat (length remaining)))%Z.
Proof.
  revert cur remaining order.
  induction fuel as [|fuel IH]; intros cur remaining order Hf.
  - destruct remaining; [|simpl in Hf; lia]. simpl. lia.
  - cbn [PlanRoute.nn_loop]. destruct remaining as [|x t]; [simpl; lia|].
    destruct (Z.ltb_spec (Z.of_nat (length order)) mt) as [Hlt|Hge].
    + pose proof (list_sort_length
                    (fun c => dist cur (PlanRoute.c_pos c)) (x :: t)) as Hl.
      destruct (list_sort _ (x :: t)) as [|chosen rest];
        [discriminate Hl|].
      simpl in Hl, Hf. rewrite IH by lia.
      rewrite length_app. cbn [length]. lia.
    + cbn [length]. lia.
Qed.

(** X16.  The planner never stops early: the route has exactly as many
    entries as there are usable hoops, up to [max_targets] (none when
    [max_targets] is not positive). *)
Theorem plan_route_length (c : PlanRoute.Config) (u : UAV) :
  Z.of_nat (length (PlanRoute.route (fst (PlanRoute.on_enter c u))))
  = Z.min (Z.max 0 (PlanRoute.max_targets c))
          (Z.of_nat (length (PlanRoute.centers
                               (PlanRoute.input_hoops c u)))).
Proof.
  rewrite (proj1 (on_enter_route c u)), length_map.
  unfold PlanRoute.plan_order.
  rewrite nn_loop_length_exact by lia. simpl. f_equal. lia.
Qed.

Lemma nn_loop_greedy (fuel : nat) (mt : Z) (cur : Point3)
  (remaining order : list PlanRoute.Center) :
  exists picked unused,
    PlanRoute.nn_loop fuel mt cur remaining order = order ++ picked
    /\ Permutation (picked ++ unused) remaining
    /\ greedy_hops cur (map PlanRoute.c_pos picked)
                   (map PlanRoute.c_pos unused).
Proof.
  revert cur remaining order.
  induction fuel as [|fuel IH]; intros cur remaining order.
  - exists [], remaining. simpl. rewrite app_nil_r. auto.
  - destruct remaining as [|x t].
    + exists [], []. simpl. rewrite app_nil_r. auto.
    + destruct (Z.ltb_spec (Z.of_nat (length order)) mt) as [Hlt|Hge].
      * destruct (first_min_split (fun c => dist cur (PlanRoute.c_pos c))
                    x t) as (l1 & m & l2 & E & H1 & H2).
        destruct (IH (PlanRoute.c_pos m)
                    (list_sort (fun c => dist cur (PlanRoute.c_pos c))
                               (l1 ++ l2))
                    (order ++ [m])) as (picked & unused & Hnn & Hp & Hg).
        exists (m :: picked), unused. repeat split.
        -- cbn [PlanRoute.nn_loop].
           apply Z.ltb_lt in Hlt. rewrite Hlt.
           rewrite E, (list_sort_first_min _ l1 l2 m H1 H2), Hnn.
           now rewrite <- app_assoc.
        -- rewrite E. simpl. rewrite Hp, list_sort_perm.
           apply Permutation_middle.
        -- intros y Hy. rewrite <- map_app in Hy.
           apply in_map_iff in Hy. destruct Hy as (z & <- & Hz).
           apply (Permutation_in _ Hp) in Hz.
           apply (Permutation_in _ (list_sort_perm _ _)) in Hz.
           apply in_app_or in Hz. destruct Hz as [Hz|Hz].
           ++ specialize (H1 z Hz). simpl in H1. lra.
           ++ exact (H2 z Hz).
        -- exact Hg.
      * exists [], (x :: t). cbn [PlanRoute.nn_loop].
        apply Z.ltb_ge in Hge. rewrite Hge. simpl.
        rewrite app_nil_r. auto.
Qed.

(** X17.  The route is a greedy tour from the vehicle's position: every hop
    goes to a hoop that is no farther from where the hop starts than
    any hoop visited later or left out of the route. *)
Theorem plan_route_greedy (c : PlanRoute.Config) (u : UAV) :
  exists unused,
    Permutation (PlanRoute.plan_order c u ++ unused)
                (PlanRoute.centers (PlanRoute.input_hoops c u))
    /\ greedy_hops (get (uav.local_position u) (0, 0, 0))
         (map hoop_pos (PlanRoute.route (fst (PlanRoute.on_enter c u))))
         (map PlanRoute.c_pos unused).
Proof.
  rewrite (proj1 (on_enter_route c u)), map_map.
  rewrite (map_ext _ PlanRoute.c_pos)
    by (intros item; apply plan_entry_hoop).
  unfold PlanRoute.plan_order.
  destruct (nn_loop_greedy
              (length (PlanRoute.centers (PlanRoute.input_hoops c u)))
              (PlanRoute.max_targets c)
              (get (uav.local_position u) (0, 0, 0))
              (PlanRoute.centers (PlanRoute.input_hoops c u)) [])
    as (picked & unused & -> & Hp & Hg).
  exists unused. simpl. auto.
Qed.

(** ** PlanRoute: the standoff *)

(** A point moved back from [h] by [p] along a horizontal unit vector
    is at distance |p| from [h]. *)
Lemma standoff_distance (hx hy hz nx ny p : R) :
  nx * nx + ny * ny = 1 ->
  dist (hx - nx * p, hy - ny * p, hz) (hx, hy, hz) = Rabs p.
Proof.
  intros Hn. unfold dist. cbn [px py pz fst snd].
  rewrite <- sqrt_Rsqr_abs. f_equal. unfold Rsqr.
  replace ((hx - nx * p - hx) * (hx - nx * p - hx)
           + (hy - ny * p - hy) * (hy - ny * p - hy)
           + (hz - hz) * (hz - hz))
    with ((nx * nx + ny * ny) * (p * p)) by ring.
  rewrite Hn. ring.
Qed.

Lemma cos_sin_unit (b : R) : cos b * cos b + sin b * sin b = 1.
Proof. pose proof (sin2_cos2 b) as H. unfold Rsqr in H. lra. Qed.

(** X18.  The pre-approach point of a route entry stands
    |pre_approach_dist| away from its hoop, at the hoop's height, when
    the hoop has a bearing or is not straight above or below the home
    pose; otherwise it is the hoop position itself. *)
Theorem pre_approach_standoff (c : PlanRoute.Config) (u : UAV)
  (e : RouteEntry) :
  In e (PlanRoute.route (fst (PlanRoute.on_enter c u))) ->
  let home := get (uav.home_pose u) (0, 0, 0) in
  let off_home :=
    px (hoop_pos e) <> px home \/ py (hoop_pos e) <> py home in
  pz (pre_approach e) = pz (hoop_pos e)
  /\ (bearing (hoop e) <> None \/ off_home ->
      dist (pre_approach e) (hoop_pos e)
      = Rabs (PlanRoute.pre_approach_dist c))
  /\ (bearing (hoop e) = None -> ~ off_home ->
      pre_approach e = hoop_pos e).
Proof.
  rewrite (proj1 (on_enter_route c u)), in_map_iff.
  intros (item & <- & _). cbv zeta.
  unfold PlanRoute.plan_entry, PlanRoute.approach_normal.
  destruct (PlanRoute.c_pos item) as [[hx hy] hz].
  destruct (get (uav.home_pose u) (0, 0, 0)) as [[sx sy] sz].
  cbn [px py pz fst snd pre_approach hoop_pos hoop].
  split; [reflexivity|].
  destruct (bearing (PlanRoute.c_hoop item)) as [b|].
  - split; [|discriminate].
    intros _. cbn [px py fst snd].
    apply standoff_distance, cos_sin_unit.
  - destruct (Req_dec_T (hypot (hx - sx) (hy - sy)) 0) as [Hz|Hnz].
    + apply hypot_zero in Hz. destruct Hz as [Hx Hy]. split.
      * intros [H|[H|H]]; [now destruct H | lra | lra].
      * intros _ _. cbn [px py fst snd]. rewrite Hx, Hy.
        replace (hx - 0 / 1 * PlanRoute.pre_approach_dist c) with hx by lra.
        replace (hy - 0 / 1 * PlanRoute.pre_approach_dist c) with hy by lra.
        reflexivity.
    + split.
      * intros _. cbn [px py fst snd].
        apply standoff_distance.
        pose proof (hypot_square (hx - sx) (hy - sy)) as Hsq.
        set (d := hypot (hx - sx) (hy - sy)) in *.
        replace ((hx - sx) / d * ((hx - sx) / d)
                 + (hy - sy) / d * ((hy - sy) / d))
          with (((hx - sx) * (hx - sx) + (hy - sy) * (hy - sy)) / (d * d))
          by (field; exact Hnz).
        rewrite <- Hsq. field. exact Hnz.
      * intros _ Hoff. exfalso. apply Hnz, hypot_zero.
        split; apply Rminus_diag_eq;
          destruct (Req_dec_T hx sx), (Req_dec_T hy sy); tauto.
Qed.

(** ** PlanRoute: what it reads and what it writes *)

(** X19.  Planning replaces the route and nothing else: the result does not
    depend on the route or the traversed hoops found in the shared
    context, and every other shared field is left as it was. *)
Theorem plan_replaces_route (c : PlanRoute.Config) (u : UAV)
  (old_route done : list RouteEntry) :
  PlanRoute.on_enter c (uav.set_hoops_traversed
                          (uav.set_planned_route u old_route) done)
  = (fst (PlanRoute.on_enter c u),
     uav.set_hoops_traversed (snd (PlanRoute.on_enter c u)) done)
  /\ let u' := snd (PlanRoute.on_enter c u) in
     uav.local_position u' = uav.local_position u
     /\ uav.vision u' = uav.vision u
     /\ uav.hoops_discovered u' = uav.hoops_discovered u
     /\ uav.hoops_traversed u' = uav.hoops_traversed u
     /\ uav.home_pose u' = uav.home_pose u
     /\ uav.accepts u' = uav.accepts u.
Proof.
  unfold PlanRoute.on_enter, PlanRoute.plan_order, PlanRoute.input_hoops.
  cbn [uav.hoops_discovered uav.set_hoops_traversed uav.set_planned_route
       uav.local_position].
  split.
  - destruct (match PlanRoute.points c with
              | Some (p :: ps) => PlanRoute.hoops_of_points (p :: ps)
              | _ => or_nil (uav.hoops_discovered u)
              end); reflexivity.
  - destruct (match PlanRoute.points c with
              | Some (p :: ps) => PlanRoute.hoops_of_points (p :: ps)
              | _ => or_nil (uav.hoops_discovered u)
              end); repeat split.
Qed.

Lemma hoops_of_points_centers (ps : list (option Point3))
  (item : PlanRoute.Center) :
  In item (PlanRoute.centers (PlanRoute.hoops_of_points ps)) ->
  PlanRoute.c_hoop item = hoop_at (PlanRoute.c_pos item)
  /\ In (Some (PlanRoute.c_pos item)) ps.
Proof.
  unfold PlanRoute.centers, PlanRoute.hoops_of_points.
  rewrite in_flat_map. intros (h & Hh & Hin).
  rewrite in_flat_map in Hh. destruct Hh as (p & Hp & Hh).
  destruct p as [xyz|]; [|destruct Hh].
  destruct Hh as [<-|[]]. simpl in Hin. destruct Hin as [<-|[]].
  simpl. auto.
Qed.

(** X20.  An explicit list of points takes priority over the discovered
    hoops: with at least one point supplied the route does not depend
    on [hoops_discovered], and every entry is a bare position record
    for one of the supplied points. *)
Theorem plan_points_take_priority (c : PlanRoute.Config) (u : UAV)
  (p : option Point3) (ps : list (option Point3)) (hs : list HoopIn) :
  PlanRoute.points c = Some (p :: ps) ->
  fst (PlanRoute.on_enter c (uav.set_hoops_discovered u hs))
  = fst (PlanRoute.on_enter c u)
  /\ forall e, In e (PlanRoute.route (fst (PlanRoute.on_enter c u))) ->
       hoop e = hoop_at (hoop_pos e)
       /\ In (Some (hoop_pos e)) (p :: ps).
Proof.
  intros Hpts. split.
  - unfold PlanRoute.on_enter, PlanRoute.plan_order, PlanRoute.input_hoops.
    rewrite Hpts.
    destruct (PlanRoute.hoops_of_points (p :: ps)); reflexivity.
  - intros e. rewrite (proj1 (on_enter_route c u)), in_map_iff.
    intros (item & <- & Hin). apply plan_order_in in Hin.
    unfold PlanRoute.input_hoops in Hin. rewrite Hpts in Hin.
    destruct (plan_entry_hoop c u item) as [-> ->].
    now apply hoops_of_points_centers.
Qed.

Lemma east_entry_planned :
  In east_entry
     (PlanRoute.route (fst (PlanRoute.on_enter default_plan_config
                              single_uav))).
Proof.
  rewrite (proj1 (on_enter_route _ _)). apply in_map.
  left. reflexivity.
Qed.

Lemma pre_approach_standoff_witness :
  dist (pre_approach east_entry) (hoop_pos east_entry)
  = Rabs (PlanRoute.pre_approach_dist default_plan_config).
Proof.
  apply (pre_approach_standoff default_plan_config single_uav east_entry
           east_entry_planned).
  left. discriminate.
Defined.

Lemma plan_points_take_priority_witness :
  fst (PlanRoute.on_enter scenario_config
         (uav.set_hoops_discovered origin_uav [HDict east_hoop]))
  = fst (PlanRoute.on_enter scenario_config origin_uav).
Proof.
  apply (plan_points_take_priority scenario_config origin_uav
           (Some (0, 5, 0))
           [Some (10, 5, 0); Some (0, 5, 0); Some (20, 0, 0);
            Some (30, 30, 0)]).
  reflexivity.
Defined.

(** ** CommitTraverse: the segment *)

(** X21.  Entered on a route that is not empty, CommitTraverse lays a
    horizontal segment through the front hoop: it starts one unit
    before the hoop and ends |traverse_dist| beyond it, at the hoop's
    height, and the hoop lies on the line through the two. *)
Theorem commit_segment_geometry (c : CommitTraverse.Config)
  (s : CommitTraverse.State) (u : UAV) (front : RouteEntry)
  (rest : list RouteEntry) :
  uav.planned_route u = Some (front :: rest) ->
  let h := hoop_pos front in
  let td := CommitTraverse.traverse_dist c in
  exists st en,
    CommitTraverse.start (CommitTraverse.on_enter c s u) = Some st
    /\ CommitTraverse.end_ (CommitTraverse.on_enter c s u) = Some en
    /\ dist st h = 1
    /\ dist en h = Rabs td
    /\ pz st = pz h /\ pz en = pz h
    /\ px en - px h = td * (px h - px st)
    /\ py en - py h = td * (py h - py st).
Proof.
  intros Hr. cbv zeta. unfold CommitTraverse.on_enter. rewrite Hr.
  cbn [or_nil]. destruct (hoop_pos front) as [[hx hy] hz].
  assert (Hn : let n := match bearing (hoop front) with
                        | Some b => (cos b, sin b, 0)
                        | None => (0, 1, 0)
                        end in
               px n * px n + py n * py n = 1).
  { destruct (bearing (hoop front)); cbn [px py fst snd];
      [apply cos_sin_unit | lra]. }
  cbv zeta in Hn.
  set (n := match bearing (hoop front) with
            | Some b => (cos b, sin b, 0)
            | None => (0, 1, 0)
            end) in *.
  eexists. eexists.
  cbn [CommitTraverse.start CommitTraverse.end_ px py pz fst snd].
  split; [reflexivity|]. split; [reflexivity|].
  cbn [px py pz fst snd]. repeat split.
  - rewrite (standoff_distance hx hy hz (px n) (py n) 1 Hn).
    apply Rabs_pos_eq. lra.
  - replace (hx + px n * CommitTraverse.traverse_dist c)
      with (hx - px n * - CommitTraverse.traverse_dist c) by ring.
    replace (hy + py n * CommitTraverse.traverse_dist c)
      with (hy - py n * - CommitTraverse.traverse_dist c) by ring.
    rewrite (standoff_distance hx hy hz (px n) (py n) _ Hn).
    apply Rabs_Ropp.
  - ring.
  - ring.
Qed.

Lemma commit_segment_geometry_witness :
  exists st en,
    CommitTraverse.start
      (CommitTraverse.on_enter default_commit_config fresh_commit_state
         planned_uav) = Some st
    /\ CommitTraverse.end_
         (CommitTraverse.on_enter default_commit_config fresh_commit_state
            planned_uav) = Some en
    /\ dist st (hoop_pos east_entry) = 1
    /\ dist en (hoop_pos east_entry)
       = Rabs (CommitTraverse.traverse_dist default_commit_config).
Proof.
  destruct (commit_segment_geometry default_commit_config
              fresh_commit_state planned_uav east_entry [] eq_refl)
    as (st & en & H1 & H2 & H3 & H4 & _).
  exists st, en. auto.
Defined.

(** X22.  For a hoop with a bearing, planner and traverse agree on the
    approach line: the pre-approach point planned for it, the start of
    the traverse and the hoop are on one line, the pre-approach point
    [pre_approach_dist] times as far before the hoop as the start. *)
Theorem pre_approach_on_traverse_line (pc : PlanRoute.Config)
  (cc : CommitTraverse.Config) (s : CommitTraverse.State) (u0 u : UAV)
  (e : RouteEntry) (rest : list RouteEntry) :
  In e (PlanRoute.route (fst (PlanRoute.on_enter pc u0))) ->
  bearing (hoop e) <> None ->
  uav.planned_route u = Some (e :: rest) ->
  exists st,
    CommitTraverse.start (CommitTraverse.on_enter cc s u) = Some st
    /\ px (pre_approach e) - px (hoop_pos e)
       = PlanRoute.pre_approach_dist pc * (px st - px (hoop_pos e))
    /\ py (pre_approach e) - py (hoop_pos e)
       = PlanRoute.pre_approach_dist pc * (py st - py (hoop_pos e))
    /\ pz (pre_approach e) = pz st.
Proof.
  rewrite (proj1 (on_enter_route pc u0)), in_map_iff.
  intros (item & <- & _) Hb Hr.
  unfold CommitTraverse.on_enter. rewrite Hr. cbn [or_nil].
  revert Hb. unfold PlanRoute.plan_entry, PlanRoute.approach_normal.
  destruct (PlanRoute.c_pos item) as [[hx hy] hz].
  cbn [hoop hoop_pos pre_approach].
  destruct (bearing (PlanRoute.c_hoop item)) as [b|]; [|congruence].
  intros _. eexists. cbn [CommitTraverse.start].
  split; [reflexivity|].
  cbn [px py pz fst snd]. repeat split; ring.
Qed.

Lemma pre_approach_on_traverse_line_witness :
  exists st,
    CommitTraverse.start
      (CommitTraverse.on_enter default_commit_config fresh_commit_state
         planned_uav) = Some st
    /\ pz (pre_approach east_entry) = pz st.
Proof.
  destruct (pre_approach_on_traverse_line default_plan_config
              default_commit_config fresh_commit_state single_uav
              planned_uav east_entry [] east_entry_planned)
    as (st & H1 & _ & _ & H4).
  - discriminate.
  - reflexivity.
  - exists st. auto.
Defined.

(** ** GoToPreApproach *)

(** X23.  Entered on a route that is not empty, GoToPreApproach only ever
    commands position setpoints at the pre-approach point of the front
    entry, with the hoop's bearing as yaw or, when the vehicle rejects
    that, with none; and it completes exactly when the vehicle has a
    pose within [waypoint_tol_m] of that point. *)
Theorem goto_targets_front_entry (c : GoToPreApproach.Config)
  (s : GoToPreApproach.State) (u0 u : UAV) (item : RouteEntry)
  (rest : list RouteEntry) :
  uav.planned_route u0 = Some (item :: rest) ->
  let s' := GoToPreApproach.on_enter s u0 in
  GoToPreApproach.on_update s' u <> []
  /\ (forall cmd, In cmd (GoToPreApproach.on_update s' u) ->
        cmd = PublishPositionSetpoint (pre_approach item) None
        \/ (bearing (hoop item) <> None
            /\ cmd = PublishPositionSetpoint (pre_approach item)
                       (bearing (hoop item))))
  /\ (GoToPreApproach.check_status c s' u = COMPLETE
      <-> exists cur, uav.local_position u = Some cur
                      /\ dist cur (pre_approach item)
                         <= GoToPreApproach.waypoint_tol_m c).
Proof.
  intros Hr. cbv zeta.
  unfold GoToPreApproach.on_enter, GoToPreApproach.on_update,
    GoToPreApproach.check_status, try_else.
  rewrite Hr.
  cbn [or_nil GoToPreApproach.target GoToPreApproach.target_hoop].
  repeat split.
  - destruct (bearing (hoop item)); [destruct (uav.accepts u _)|];
      discriminate.
  - destruct (bearing (hoop item)) as [b|];
      [destruct (uav.accepts u _)|];
      intros cmd Hin; cbn [In] in Hin;
      repeat (destruct Hin as [<-|Hin];
              [first [ now left | right; split; [discriminate|reflexivity] ]|]);
      destruct Hin.
  - destruct (uav.local_position u) as [cur|]; [|discriminate].
    destruct (Rleb _ _) eqn:E; [|discriminate].
    apply Rleb_true in E. intros _. now exists cur.
  - intros (cur & -> & Hd). apply Rleb_true in Hd. now rewrite Hd.
Qed.

Lemma goto_targets_front_entry_witness :
  GoToPreApproach.on_update
    (GoToPreApproach.on_enter fresh_goto_state planned_uav) planned_uav
  <> [].
Proof.
  apply (goto_targets_front_entry default_goto_config fresh_goto_state
           planned_uav planned_uav east_entry [] eq_refl).
Defined.
